(** * CuGraphRGCNConv: the cugraph-ops relational graph convolution layer

    A shallow embedding of
    [torch_geometric/nn/conv/cugraph/rgcn_conv.py]: the module-level optional
    import of the aggregation kernel, the constructor, [reset_parameters] and
    [forward], together with the few tensor operations the layer applies
    itself (identity matrix, [view(-1, c)], [@], broadcasting [+], slicing on
    the first dimension).

    Tensor entries live in an abstract scalar type [R] (the code uses
    float32): every statement below holds for any choice of scalars and of
    their addition and multiplication.  The aggregation kernel and the typed
    graph builder are external collaborators and are parameters of the
    model. *)

From Stdlib Require Import String Ascii List ZArith Bool Arith Lia.
From Stdlib Require Import DecimalString DecimalNat.
Import ListNotations.

Set Implicit Arguments.

(** ** Exceptions, results and the state-and-error monad *)

Inductive exn : Type :=
| ValueError (msg : string)
| NameError (name : string)
| ImportError (name : string)
| IndexError
| AttributeError (name : string)
| RuntimeError.

Inductive result (A : Type) : Type :=
| Ok (a : A)
| Raise (e : exn).

Arguments Ok {A} a.
Arguments Raise {A} e.

Definition is_ok {A} (r : result A) : bool :=
  match r with Ok _ => true | Raise _ => false end.

Definition rbind {A B} (r : result A) (k : A -> result B) : result B :=
  match r with Ok a => k a | Raise e => Raise e end.

(** A Python statement sequence over a mutable state [S]: the state reached
    when an exception is raised is kept, as in Python. *)
Definition M (S A : Type) : Type := S -> result A * S.

Definition ret {S A} (a : A) : M S A := fun s => (Ok a, s).

Definition raise {S A} (e : exn) : M S A := fun s => (Raise e, s).

Definition lift {S A} (r : result A) : M S A := fun s => (r, s).

Definition bind {S A B} (m : M S A) (k : A -> M S B) : M S B :=
  fun s =>
    match m s with
    | (Ok a, s') => k a s'
    | (Raise e, s') => (Raise e, s')
    end.

Declare Scope py_scope.
Delimit Scope py_scope with py.
Notation "x <- m ;; k" := (bind m (fun x => k))
  (at level 100, m at next level, right associativity) : py_scope.
Local Open Scope py_scope.

(** ** Tensors: device, shape and row-major storage *)

Inductive Device : Type :=
| cpu
| cuda (index : nat).

Definition device_eqb (a b : Device) : bool :=
  match a, b with
  | cpu, cpu => true
  | cuda i, cuda j => Nat.eqb i j
  | _, _ => false
  end.

Record Tensor (A : Type) : Type := mkTensor {
  device : Device;
  shape : list nat;
  data : list A
}.

Definition numel (sh : list nat) : nat := fold_right Nat.mul 1 sh.

(** [t.size(dim)] for a non-negative [dim]. *)
Definition size {A} (t : Tensor A) (dim : nat) : result nat :=
  match nth_error (shape t) dim with
  | Some n => Ok n
  | None => Raise IndexError
  end.

(** A contiguous window of a storage: what [t[:stop]] and [t[i]] denote.
    The window shares the storage of [t]; writing through it changes [t]. *)
Record View : Type := mkView {
  v_offset : nat;
  v_shape : list nat
}.

(** [t[:stop]] on the first dimension, with Python's treatment of a negative
    or too large [stop]. *)
Definition slice_to (sh : list nat) (stop : option Z) : result View :=
  match sh with
  | [] => Raise IndexError
  | d :: rest =>
      let n :=
        match stop with
        | None => d
        | Some e =>
            if (e <? 0)%Z then Z.to_nat (Z.max 0 (Z.of_nat d + e))
            else Nat.min (Z.to_nat e) d
        end in
      Ok (mkView 0 (n :: rest))
  end.

(** [t[i]] on the first dimension; a negative [i] counts from the end. *)
Definition select (sh : list nat) (i : Z) : result View :=
  match sh with
  | [] => Raise IndexError
  | d :: rest =>
      let j := if (i <? 0)%Z then (Z.of_nat d + i)%Z else i in
      if ((0 <=? j) && (j <? Z.of_nat d))%Z
      then Ok (mkView (Z.to_nat j * numel rest) rest)
      else Raise IndexError
  end.

Definition read_view {A} (t : Tensor A) (v : View) : Tensor A :=
  mkTensor (device t) (v_shape v)
    (firstn (numel (v_shape v)) (skipn (v_offset v) (data t))).

(** The effect on [t] of an in-place update of the window [v] to [xs]. *)
Definition write_view {A} (t : Tensor A) (v : View) (xs : list A) : Tensor A :=
  mkTensor (device t) (shape t)
    (firstn (v_offset v) (data t) ++ xs
       ++ skipn (v_offset v + numel (v_shape v)) (data t)).

(** Multi-index of a flat row-major position, and the flat position of a
    multi-index in a tensor that is broadcast along its dimensions of
    size 1. *)
Fixpoint unravel (sh : list nat) (i : nat) : list nat :=
  match sh with
  | [] => []
  | _ :: rest => (i / numel rest) :: unravel rest (i mod numel rest)
  end.

Fixpoint ravel_bc (sh idx : list nat) : nat :=
  match sh, idx with
  | d :: rest, j :: idx' =>
      (if d =? 1 then 0 else j) * numel rest + ravel_bc rest idx'
  | _, _ => 0
  end.

(** Broadcast of two shapes, aligned on the right. *)
Fixpoint broadcast_rev (a b : list nat) : option (list nat) :=
  match a, b with
  | [], _ => Some b
  | _, [] => Some a
  | x :: a', y :: b' =>
      match broadcast_rev a' b' with
      | None => None
      | Some r =>
          if x =? y then Some (x :: r)
          else if x =? 1 then Some (y :: r)
          else if y =? 1 then Some (x :: r)
          else None
      end
  end.

Definition broadcast_shapes (a b : list nat) : option (list nat) :=
  option_map (@rev nat) (broadcast_rev (rev a) (rev b)).

(** A shape padded on the left with 1s up to rank [n]. *)
Definition pad_shape (n : nat) (sh : list nat) : list nat :=
  repeat 1 (n - length sh) ++ sh.

(** Device of the result of an elementwise binary operation: the operands
    share a device, except that a 0-dimensional cpu tensor combines with a
    tensor on any device. *)
Definition common_device {A} (a b : Tensor A) : option Device :=
  if device_eqb (device a) (device b) then Some (device a)
  else if (length (shape a) =? 0) && device_eqb (device a) cpu
       then Some (device b)
  else if (length (shape b) =? 0) && device_eqb (device b) cpu
       then Some (device a)
  else None.

Section Layer.

(** Scalars of the parameter and feature tensors. *)
Variable R : Type.
Variables (rzero rone : R) (radd rmul : R -> R -> R).

(** The global random generator of torch and one draw from the uniform
    distribution whose bound is derived from the last two dimensions
    [size(-2)] and [size(-1)] of the tensor being filled. *)
Variable RNG : Type.
Variable uniform_ : nat -> nat -> RNG -> R * RNG.

(** Content of freshly allocated, uninitialised storage. *)
Variable uninit : nat -> R.

(** The opaque typed graph handle and its builder
    [CuGraphModule.get_typed_cugraph] of the base class. *)
Variable Graph : Type.
Variable get_typed_cugraph :
  nat -> Tensor Z * Tensor Z -> Tensor Z -> nat -> option Z -> result Graph.

(** *** Tensor operations used by the layer *)

(** [torch.eye(n, device=d)] *)
Definition eye (n : nat) (d : Device) : Tensor R :=
  mkTensor d [n; n]
    (flat_map
       (fun i => map (fun j => if i =? j then rone else rzero) (seq 0 n))
       (seq 0 n)).

(** [t.view(-1, c)]: the same storage under the shape [(numel / c, c)]. *)
Definition view_m1 (t : Tensor R) (c : nat) : result (Tensor R) :=
  if c =? 0 then Raise RuntimeError
  else if numel (shape t) mod c =? 0
       then Ok (mkTensor (device t) [numel (shape t) / c; c] (data t))
  else Raise RuntimeError.

(** Entry [(i, j)] of the product of a [_ x m] by an [m x p] storage. *)
Definition dot (a b : list R) (m p i j : nat) : R :=
  fold_left
    (fun acc k => radd acc (rmul (nth (i * m + k) a rzero)
                                 (nth (k * p + j) b rzero)))
    (seq 0 m) rzero.

(** [a @ b] for a 2-dimensional [b] (what [view(-1, c)] returns): the
    leading dimensions of [a] are batch dimensions. *)
Definition matmul (a b : Tensor R) : result (Tensor R) :=
  match rev (shape a), shape b with
  | m :: rpre, [m'; p] =>
      if device_eqb (device a) (device b) && (m =? m')
      then Ok (mkTensor (device a) (rev rpre ++ [p])
                 (flat_map
                    (fun i => map (fun j => dot (data a) (data b) m p i j)
                                  (seq 0 p))
                    (seq 0 (numel rpre))))
      else Raise RuntimeError
  | _, _ => Raise RuntimeError
  end.

(** [a + b] with broadcasting. *)
Definition add (a b : Tensor R) : result (Tensor R) :=
  match common_device a b, broadcast_shapes (shape a) (shape b) with
  | Some d, Some sh =>
      let sa := pad_shape (length sh) (shape a) in
      let sb := pad_shape (length sh) (shape b) in
      Ok (mkTensor d sh
            (map (fun i =>
                    let idx := unravel sh i in
                    radd (nth (ravel_bc sa idx) (data a) rzero)
                         (nth (ravel_bc sb idx) (data b) rzero))
                 (seq 0 (numel sh))))
  | _, _ => Raise RuntimeError
  end.

(** *** The layer object *)

Record CuGraphRGCNConv : Type := mkLayer {
  in_channels : nat;
  out_channels : nat;
  num_relations : nat;
  num_bases : option nat;
  aggr : string;
  root_weight : bool;
  weight : Tensor R;
  comp : option (Tensor R);
  bias : option (Tensor R)
}.

Definition set_weight (self : CuGraphRGCNConv) (w : Tensor R) :=
  mkLayer (in_channels self) (out_channels self) (num_relations self)
    (num_bases self) (aggr self) (root_weight self) w (comp self) (bias self).

Definition set_comp (self : CuGraphRGCNConv) (c : option (Tensor R)) :=
  mkLayer (in_channels self) (out_channels self) (num_relations self)
    (num_bases self) (aggr self) (root_weight self) (weight self) c
    (bias self).

Definition set_bias (self : CuGraphRGCNConv) (b : option (Tensor R)) :=
  mkLayer (in_channels self) (out_channels self) (num_relations self)
    (num_bases self) (aggr self) (root_weight self) (weight self)
    (comp self) b.

Definition set_aggr (self : CuGraphRGCNConv) (a : string) :=
  mkLayer (in_channels self) (out_channels self) (num_relations self)
    (num_bases self) a (root_weight self) (weight self) (comp self)
    (bias self).

(** What lies outside the object: the random generator and the log of the
    shapes requested from the allocator through [torch.Tensor(...)]. *)
Record World : Type := mkWorld {
  rng : RNG;
  allocs : list (list nat)
}.

(** *** Module level: the optional import of the kernel *)

(** [agg_hg_basis_n2n_post(x, comp, graph, concat_own, norm_by_out_degree)] *)
Definition Kernel : Type :=
  Tensor R -> option (Tensor R) -> Graph -> bool -> bool -> result (Tensor R).

(** The module's global names that the layer refers to. *)
Record Globals : Type := mkGlobals {
  RGCNConvAgg : option Kernel
}.

(** [from pylibcugraphops.torch.autograd import agg_hg_basis_n2n_post],
    given what is installed. *)
Definition import_kernel (installed : option Kernel) : result Kernel :=
  match installed with
  | Some k => Ok k
  | None => Raise (ImportError "pylibcugraphops.torch.autograd")
  end.

(** Lines 11-15: [try: from ... import ... as RGCNConvAgg]
    [except ImportError: pass]. *)
Definition import_module (installed : option Kernel) : result Globals :=
  match import_kernel installed with
  | Ok k => Ok (mkGlobals (Some k))
  | Raise (ImportError _) => Ok (mkGlobals None)
  | Raise e => Raise e
  end.

(** Reading a global name: an unbound name raises [NameError]. *)
Definition global {A} (name : string) (v : option A) : result A :=
  match v with
  | Some a => Ok a
  | None => Raise (NameError name)
  end.

(** *** Initialisers *)

(** [n] successive draws scaled for fan-in [fi] and fan-out [fo]. *)
Fixpoint draws (n fi fo : nat) (g : RNG) : list R * RNG :=
  match n with
  | 0 => ([], g)
  | S n' =>
      let (x, g1) := uniform_ fi fo g in
      let (xs, g2) := draws n' fi fo g1 in
      (x :: xs, g2)
  end.

(** Modelled from the spec: [torch_geometric.nn.inits.glorot], which is not
    among the sources.  It fills its argument in place with random values
    scaled by a factor derived from the last two dimensions of the tensor,
    and does nothing when the argument is absent.  The model returns the new
    content of the argument; the caller stores it where the argument
    lives. *)
Definition glorot (value : option (Tensor R)) : M World (option (Tensor R)) :=
  match value with
  | None => ret None
  | Some t =>
      match rev (shape t) with
      | fo :: fi :: _ =>
          fun w =>
            let (xs, g) := draws (numel (shape t)) fi fo (rng w) in
            (Ok (Some (mkTensor (device t) (shape t) xs)),
             mkWorld g (allocs w))
      | _ => raise IndexError
      end
  end.

(** Modelled from the spec: [torch_geometric.nn.inits.zeros], which is not
    among the sources.  It zero-fills its argument in place and does
    nothing when the argument is absent. *)
Definition zeros (value : option (Tensor R)) : option (Tensor R) :=
  match value with
  | None => None
  | Some t =>
      Some (mkTensor (device t) (shape t) (repeat rzero (numel (shape t))))
  end.

(** *** Methods: statements over [self] and the world *)

Definition Method (A : Type) : Type := M (CuGraphRGCNConv * World) A.

Definition self_ : Method CuGraphRGCNConv := fun s => (Ok (fst s), s).

Definition assign (f : CuGraphRGCNConv -> CuGraphRGCNConv) : Method unit :=
  fun s => (Ok tt, (f (fst s), snd s)).

Definition in_world {A} (m : M World A) : Method A :=
  fun s => let (r, w) := m (snd s) in (r, (fst s, w)).

(** [glorot(self.weight[...])]: the argument is a window of the storage of
    [self.weight], so the fill lands in [self.weight]. *)
Definition glorot_weight (v : View) : Method unit :=
  self <- self_ ;;
  r <- in_world (glorot (Some (read_view (weight self) v))) ;;
  match r with
  | Some t => assign (fun s => set_weight s (write_view (weight s) v (data t)))
  | None => ret tt
  end.

(** Lines 64-70. *)
Definition reset_parameters : Method unit :=
  self <- self_ ;;
  let end_ := if root_weight self then Some (-1)%Z else None in
  v <- lift (slice_to (shape (weight self)) end_) ;;
  _ <- glorot_weight v ;;
  c <- in_world (glorot (comp self)) ;;
  _ <- assign (fun s => set_comp s c) ;;
  _ <- (if root_weight self
        then v1 <- lift (select (shape (weight self)) (-1)) ;;
             glorot_weight v1
        else ret tt) ;;
  assign (fun s => set_bias s (zeros (bias s))).

(** *** Constructor *)

(** Modelled from the spec: [CuGraphModule.__init__], the constructor of
    the base class, which is not among the sources.  The spec describes the
    base class as providing parameter registration and generic module
    behaviour, and requires that construction does not fail because the
    kernel is absent: it sets up the empty module and returns. *)
Definition super_init : M World unit := ret tt.

(** [torch.Tensor(d1, ..., dk)]: uninitialised storage of shape [sh]. *)
Definition torch_Tensor (sh : list nat) : M World (Tensor R) :=
  fun w => (Ok (mkTensor cpu sh (map uninit (seq 0 (numel sh)))),
            mkWorld (rng w) (allocs w ++ [sh])).

Definition aggr_error (aggr : string) : string :=
  ("Aggregation function must be either 'mean' or 'sum' (got '"
     ++ aggr ++ "')")%string.

(** Lines 28-62.  The attributes are collected into the object once their
    values exist; when the constructor raises, no object results. *)
Definition __init__ (in_channels out_channels num_relations : nat)
    (num_bases : option nat) (aggr : string) (root_weight bias : bool)
  : M World CuGraphRGCNConv :=
  _ <- super_init ;;
  if negb (existsb (String.eqb aggr) ["sum"; "add"; "mean"]%string)
  then raise (ValueError (aggr_error aggr))
  else
    let dim_root_weight := if root_weight then 1 else 0 in
    wc <- match num_bases with
          | Some nb =>
              w <- torch_Tensor
                     [nb + dim_root_weight; in_channels; out_channels] ;;
              c <- torch_Tensor [num_relations; nb] ;;
              ret (w, Some c)
          | None =>
              w <- torch_Tensor
                     [num_relations + dim_root_weight; in_channels;
                      out_channels] ;;
              ret (w, None)
          end ;;
    b <- (if bias
          then b <- torch_Tensor [out_channels] ;; ret (Some b)
          else ret None) ;;
    let self := mkLayer in_channels out_channels num_relations num_bases
                  aggr root_weight (fst wc) (snd wc) b in
    fun w =>
      match reset_parameters (self, w) with
      | (Ok _, (self', w')) => (Ok self', w')
      | (Raise e, (_, w')) => (Raise e, w')
      end.

(** *** The constructor, attribute by attribute *)

(** The attribute slots of [self] while it is being constructed: [None] is
    a slot that has not been assigned.  A parameter registered as [None] is
    the assigned slot [Some None]. *)
Record Attrs : Type := mkAttrs {
  a_in_channels : option nat;
  a_out_channels : option nat;
  a_num_relations : option nat;
  a_num_bases : option (option nat);
  a_aggr : option string;
  a_root_weight : option bool;
  a_weight : option (Tensor R);
  a_comp : option (option (Tensor R));
  a_bias : option (option (Tensor R))
}.

(** The object as [__new__] hands it to [__init__]. *)
Definition no_attrs : Attrs :=
  mkAttrs None None None None None None None None None.

Definition with_in_channels (v : nat) (o : Attrs) : Attrs :=
  mkAttrs (Some v) (a_out_channels o) (a_num_relations o) (a_num_bases o)
    (a_aggr o) (a_root_weight o) (a_weight o) (a_comp o) (a_bias o).

Definition with_out_channels (v : nat) (o : Attrs) : Attrs :=
  mkAttrs (a_in_channels o) (Some v) (a_num_relations o) (a_num_bases o)
    (a_aggr o) (a_root_weight o) (a_weight o) (a_comp o) (a_bias o).

Definition with_num_relations (v : nat) (o : Attrs) : Attrs :=
  mkAttrs (a_in_channels o) (a_out_channels o) (Some v) (a_num_bases o)
    (a_aggr o) (a_root_weight o) (a_weight o) (a_comp o) (a_bias o).

Definition with_num_bases (v : option nat) (o : Attrs) : Attrs :=
  mkAttrs (a_in_channels o) (a_out_channels o) (a_num_relations o) (Some v)
    (a_aggr o) (a_root_weight o) (a_weight o) (a_comp o) (a_bias o).

Definition with_aggr (v : string) (o : Attrs) : Attrs :=
  mkAttrs (a_in_channels o) (a_out_channels o) (a_num_relations o)
    (a_num_bases o) (Some v) (a_root_weight o) (a_weight o) (a_comp o)
    (a_bias o).

Definition with_root_weight (v : bool) (o : Attrs) : Attrs :=
  mkAttrs (a_in_channels o) (a_out_channels o) (a_num_relations o)
    (a_num_bases o) (a_aggr o) (Some v) (a_weight o) (a_comp o) (a_bias o).

Definition with_weight (v : Tensor R) (o : Attrs) : Attrs :=
  mkAttrs (a_in_channels o) (a_out_channels o) (a_num_relations o)
    (a_num_bases o) (a_aggr o) (a_root_weight o) (Some v) (a_comp o)
    (a_bias o).

Definition with_comp (v : option (Tensor R)) (o : Attrs) : Attrs :=
  mkAttrs (a_in_channels o) (a_out_channels o) (a_num_relations o)
    (a_num_bases o) (a_aggr o) (a_root_weight o) (a_weight o) (Some v)
    (a_bias o).

Definition with_bias (v : option (Tensor R)) (o : Attrs) : Attrs :=
  mkAttrs (a_in_channels o) (a_out_channels o) (a_num_relations o)
    (a_num_bases o) (a_aggr o) (a_root_weight o) (a_weight o) (a_comp o)
    (Some v).

(** [self.name = v] *)
Definition setattr (f : Attrs -> Attrs) : M (Attrs * World) unit :=
  fun s => (Ok tt, (f (fst s), snd s)).

(** [self.name]: an unassigned slot raises [AttributeError]. *)
Definition getattr {A} (name : string) (slot : option A) : result A :=
  match slot with
  | Some v => Ok v
  | None => Raise (AttributeError name)
  end.

Definition on_world {A} (m : M World A) : M (Attrs * World) A :=
  fun s => let (r, w) := m (snd s) in (r, (fst s, w)).

(** The object read as a layer, once its slots are assigned. *)
Definition layer_of_attrs (o : Attrs) : result CuGraphRGCNConv :=
  rbind (getattr "in_channels" (a_in_channels o)) (fun ic =>
  rbind (getattr "out_channels" (a_out_channels o)) (fun oc =>
  rbind (getattr "num_relations" (a_num_relations o)) (fun nr =>
  rbind (getattr "num_bases" (a_num_bases o)) (fun nb =>
  rbind (getattr "aggr" (a_aggr o)) (fun ag =>
  rbind (getattr "root_weight" (a_root_weight o)) (fun rw =>
  rbind (getattr "weight" (a_weight o)) (fun wt =>
  rbind (getattr "comp" (a_comp o)) (fun cp =>
  rbind (getattr "bias" (a_bias o)) (fun bs =>
  Ok (mkLayer ic oc nr nb ag rw wt cp bs)))))))))).

Definition attrs_of_layer (self : CuGraphRGCNConv) : Attrs :=
  mkAttrs (Some (in_channels self)) (Some (out_channels self))
    (Some (num_relations self)) (Some (num_bases self)) (Some (aggr self))
    (Some (root_weight self)) (Some (weight self)) (Some (comp self))
    (Some (bias self)).

(** [self.reset_parameters()] on the object under construction: the method
    runs on the object read as a layer and its in-place fills land in the
    three parameter slots. *)
Definition call_reset_parameters : M (Attrs * World) unit :=
  fun s =>
    match layer_of_attrs (fst s) with
    | Raise e => (Raise e, s)
    | Ok self =>
        match reset_parameters (self, snd s) with
        | (r, (self', w')) =>
            (r, (with_bias (bias self')
                   (with_comp (comp self')
                      (with_weight (weight self') (fst s))), w'))
        end
    end.

(** Lines 28-62, statement by statement over the slots of [self]. *)
Definition init_object (in_channels out_channels num_relations : nat)
    (num_bases : option nat) (aggr : string) (root_weight bias : bool)
  : M (Attrs * World) unit :=
  _ <- on_world super_init ;;
  if negb (existsb (String.eqb aggr) ["sum"; "add"; "mean"]%string)
  then raise (ValueError (aggr_error aggr))
  else
    _ <- setattr (with_in_channels in_channels) ;;
    _ <- setattr (with_out_channels out_channels) ;;
    _ <- setattr (with_num_relations num_relations) ;;
    _ <- setattr (with_num_bases num_bases) ;;
    _ <- setattr (with_aggr aggr) ;;
    _ <- setattr (with_root_weight root_weight) ;;
    let dim_root_weight := if root_weight then 1 else 0 in
    _ <- match num_bases with
         | Some nb =>
             w <- on_world (torch_Tensor
                              [nb + dim_root_weight; in_channels;
                               out_channels]) ;;
             _ <- setattr (with_weight w) ;;
             c <- on_world (torch_Tensor [num_relations; nb]) ;;
             setattr (with_comp (Some c))
         | None =>
             w <- on_world (torch_Tensor
                              [num_relations + dim_root_weight; in_channels;
                               out_channels]) ;;
             _ <- setattr (with_weight w) ;;
             setattr (with_comp None)
         end ;;
    _ <- (if bias
          then b <- on_world (torch_Tensor [out_channels]) ;;
               setattr (with_bias (Some b))
          else setattr (with_bias None)) ;;
    call_reset_parameters.

(** *** Forward *)

(** Lines 93-94. *)
Definition default_x (self : CuGraphRGCNConv) (x : option (Tensor R))
    (edge_type : Tensor Z) : Tensor R :=
  match x with
  | None => eye (in_channels self) (device edge_type)
  | Some x => x
  end.

(** Lines 93-102: features, graph handle, aggregation and projection. *)
Definition forward_transform (G : Globals) (x : option (Tensor R))
    (csc : Tensor Z * Tensor Z) (edge_type : Tensor Z)
    (max_num_neighbors : option Z) : Method (Tensor R) :=
  self <- self_ ;;
  let x := default_x self x edge_type in
  n <- lift (size x 0) ;;
  graph <- lift (get_typed_cugraph n csc edge_type (num_relations self)
                   max_num_neighbors) ;;
  agg <- lift (global "RGCNConvAgg" (RGCNConvAgg G)) ;;
  out <- lift (agg x (comp self) graph (root_weight self)
                 (String.eqb (aggr self) "mean")) ;;
  W <- lift (view_m1 (weight self) (out_channels self)) ;;
  lift (matmul out W).

(** Lines 72-107: the transform, then lines 104-107. *)
Definition forward (G : Globals) (x : option (Tensor R))
    (csc : Tensor Z * Tensor Z) (edge_type : Tensor Z)
    (max_num_neighbors : option Z) : Method (Tensor R) :=
  out <- forward_transform G x csc edge_type max_num_neighbors ;;
  self <- self_ ;;
  match bias self with
  | Some b => lift (add out b)
  | None => ret out
  end.

End Layer.

Arguments mkLayer {R}.
Arguments mkGlobals {R Graph}.
Arguments ret {S A} a _ /.
Arguments raise {S A} e _ /.
Arguments lift {S A} r _ /.

(** ** A runnable instance

    Integer scalars, a counter as random generator, and a reference
    aggregation over a graph handle that simply records what it was built
    from.  It serves to run the layer on concrete inputs. *)
Module Run.

Record graph : Type := mkGraph {
  g_num_src : nat;
  g_row : list Z;
  g_colptr : list Z;
  g_edge_type : list Z;
  g_num_relations : nat;
  g_max_num_neighbors : option Z
}.

Definition build (n : nat) (csc : Tensor Z * Tensor Z) (edge_type : Tensor Z)
    (num_relations : nat) (mnn : option Z) : result graph :=
  if length (data (fst csc)) =? length (data edge_type)
  then Ok (mkGraph n (data (fst csc)) (data (snd csc)) (data edge_type)
             num_relations mnn)
  else Raise RuntimeError.

Definition uniform_ (fi fo g : nat) : Z * nat :=
  (Z.of_nat (g mod (fi + fo + 1)) - Z.of_nat fi, S g)%Z.

Definition uninit (i : nat) : Z := 7777%Z.

(** Features of source node [u], as a row of width [w]. *)
Definition row_of (x : Tensor Z) (w : nat) (u : nat) : list Z :=
  map (fun k => nth (u * w + k) (data x) 0%Z) (seq 0 w).

Definition vadd (a b : list Z) : list Z :=
  map (fun p => (fst p + snd p)%Z) (combine a b).

(** Sum over the edges [lo <= e < hi] of type [r] of the source rows. *)
Definition agg_rel (x : Tensor Z) (w : nat) (g : graph) (lo hi : nat)
    (r : nat) : list Z :=
  fold_left
    (fun acc e =>
       if (nth e (g_edge_type g) (-1) =? Z.of_nat r)%Z
       then vadd acc (row_of x w (Z.to_nat (nth e (g_row g) 0%Z)))
       else acc)
    (seq lo (hi - lo)) (repeat 0%Z w).

(** A reference aggregation without basis combination: per target node,
    the per-relation sums (divided by the in-degree when normalising),
    followed by the node's own row when [concat_own]. *)
Definition kernel (x : Tensor Z) (comp : option (Tensor Z)) (g : graph)
    (concat_own norm_by_out_degree : bool) : result (Tensor Z) :=
  match shape x, comp with
  | [n; w], None =>
      if n =? g_num_src g then
        let targets := length (g_colptr g) - 1 in
        let width := (g_num_relations g + if concat_own then 1 else 0) * w in
        Ok (mkTensor (device x) [targets; width]
              (flat_map
                 (fun v =>
                    let lo := Z.to_nat (nth v (g_colptr g) 0%Z) in
                    let hi := Z.to_nat (nth (S v) (g_colptr g) 0%Z) in
                    let deg := Z.max 1 (Z.of_nat (hi - lo)) in
                    flat_map
                      (fun r =>
                         map (fun s => if norm_by_out_degree
                                       then (s / deg)%Z else s)
                             (agg_rel x w g lo hi r))
                      (seq 0 (g_num_relations g))
                    ++ (if concat_own then row_of x w v else []))
                 (seq 0 targets)))
      else Raise RuntimeError
  | _, _ => Raise RuntimeError
  end.

Definition G : Globals Z graph := mkGlobals (Some kernel).

Definition forward := forward (RNG := nat) 0%Z 1%Z Z.add Z.mul build.
Definition init := __init__ 0%Z uniform_ uninit.

(** Three nodes, two edges [1 -> 0] and [2 -> 1] of types 0 and 1. *)
Definition row3 : Tensor Z := mkTensor cpu [2] [1; 2]%Z.
Definition colptr3 : Tensor Z := mkTensor cpu [4] [0; 1; 2; 2]%Z.
Definition edge_type3 : Tensor Z := mkTensor cpu [2] [0; 1]%Z.

Definition w0 : World nat := mkWorld 0 [].

Definition reset := reset_parameters 0%Z uniform_.

(** A layer with 4 input channels, 2 output channels, 2 relations, no
    basis, a root weight and a bias. *)
Definition conv : CuGraphRGCNConv Z :=
  mkLayer 4 2 2 None "mean" true
    (mkTensor cpu [3; 4; 2]
       [1; 0; 0; 1; 1; 1; 2; 0;
        0; 2; 1; -1; 3; 1; 0; 0;
        1; 2; 3; 4; 5; 6; 7; 8]%Z)
    None
    (Some (mkTensor cpu [2] [10; -10]%Z)).

(** The number of source nodes that the edge structure describes by itself,
    in the words of the claim on absent features: one more than the largest
    source index stored in [row]. *)
Definition spec_num_source_nodes (csc : Tensor Z * Tensor Z) : nat :=
  Z.to_nat (fold_right Z.max (-1) (data (fst csc)) + 1)%Z.

End Run.


(** ** String representation *)

(** [str(n)] of a non-negative integer: its decimal digits. *)
Definition str_of_nat (n : nat) : string :=
  NilEmpty.string_of_uint (Nat.to_uint n).

(** Lines 109-111.  [class_name] is [self.__class__.__name__]. *)
Definition __repr__ {R} (class_name : string) (self : CuGraphRGCNConv R)
  : string :=
  (class_name ++ "(" ++ str_of_nat (in_channels self) ++ ", "
     ++ str_of_nat (out_channels self) ++ ", num_relations="
     ++ str_of_nat (num_relations self) ++ ")")%string.

(** ** Well-formed tensors and layers *)

(** The storage holds exactly the entries that the shape announces. *)
Definition tensor_ok {A} (t : Tensor A) : Prop :=
  length (data t) = numel (shape t).

(** The parameters agree with the configuration stored beside them, as
    lines 44-60 set them up. *)
Definition layer_ok {R} (self : CuGraphRGCNConv R) : Prop :=
  shape (weight self)
  = [match num_bases self with Some n => n | None => num_relations self end
     + (if root_weight self then 1 else 0);
     in_channels self; out_channels self]
  /\ tensor_ok (weight self)
  /\ match num_bases self, comp self with
     | Some n, Some c => shape c = [num_relations self; n] /\ tensor_ok c
     | None, None => True
     | _, _ => False
     end
  /\ match bias self with
     | Some b => shape b = [out_channels self] /\ tensor_ok b
     | None => True
     end.

(** ** Properties of the layer *)

Section Properties.

Variable R : Type.
Variables (rzero rone : R) (radd rmul : R -> R -> R).
Variable RNG : Type.
Variable uniform_ : nat -> nat -> RNG -> R * RNG.
Variable uninit : nat -> R.
Variable Graph : Type.
Variable get_typed_cugraph :
  nat -> Tensor Z * Tensor Z -> Tensor Z -> nat -> option Z -> result Graph.

Local Abbreviation Layer := (CuGraphRGCNConv R).
Local Abbreviation fwd :=
  (forward (RNG := RNG) rzero rone radd rmul get_typed_cugraph).
Local Abbreviation fwd_transform :=
  (forward_transform (RNG := RNG) rzero rone radd rmul get_typed_cugraph).
Local Abbreviation init := (__init__ rzero uniform_ uninit).
Local Abbreviation init_obj := (init_object rzero uniform_ uninit).
Local Abbreviation reset := (reset_parameters rzero uniform_).
Local Abbreviation I_ := (eye rzero rone).
Local Abbreviation valid_aggr :=
  (fun a : string => In a ["sum"; "add"; "mean"]%string).

Implicit Types (self : Layer) (w : World RNG) (G : Globals R Graph)
  (x : option (Tensor R)) (csc : Tensor Z * Tensor Z) (edge_type : Tensor Z)
  (mnn : option Z).

(** *** Forward: what it reads and what it leaves alone *)

Lemma forward_transform_state G x csc edge_type mnn self w :
  snd (fwd_transform G x csc edge_type mnn (self, w)) = (self, w).
Proof.
  unfold forward_transform, bind, self_; simpl.
  destruct (size _ 0); simpl; [|reflexivity].
  destruct (get_typed_cugraph _ _ _ _ _); simpl; [|reflexivity].
  destruct (global _ _); simpl; [|reflexivity].
  destruct (a1 _ _ _ _ _); simpl; [|reflexivity].
  destruct (view_m1 _ _); reflexivity.
Qed.

Lemma forward_state G x csc edge_type mnn self w :
  snd (fwd G x csc edge_type mnn (self, w)) = (self, w).
Proof.
  unfold forward, bind.
  pose proof (forward_transform_state G x csc edge_type mnn self w) as H.
  destruct (fwd_transform G x csc edge_type mnn (self, w)) as [[out|e] s];
    simpl in H; subst s; simpl; [|reflexivity].
  destruct (bias self); reflexivity.
Qed.

(** The result of [forward] as a plain function of the fields it reads. *)
Lemma forward_result G x csc edge_type mnn self w :
  fst (fwd G x csc edge_type mnn (self, w)) =
  rbind (size (default_x rzero rone self x edge_type) 0) (fun n =>
  rbind (get_typed_cugraph n csc edge_type (num_relations self) mnn)
    (fun graph =>
  rbind (global "RGCNConvAgg" (RGCNConvAgg G)) (fun agg =>
  rbind (agg (default_x rzero rone self x edge_type) (comp self) graph
           (root_weight self) (String.eqb (aggr self) "mean")) (fun out =>
  rbind (view_m1 (weight self) (out_channels self)) (fun W =>
  rbind (matmul rzero radd rmul out W) (fun out' =>
  match bias self with
  | Some b => add rzero radd out' b
  | None => Ok out'
  end)))))).
Proof.
  unfold forward, forward_transform, bind, self_; simpl.
  destruct (size _ 0); simpl; [|reflexivity].
  destruct (get_typed_cugraph _ _ _ _ _); simpl; [|reflexivity].
  destruct (global _ _); simpl; [|reflexivity].
  destruct (a1 _ _ _ _ _); simpl; [|reflexivity].
  destruct (view_m1 _ _); simpl; [|reflexivity].
  destruct (matmul _ _ _ _ _); simpl; [|reflexivity].
  destruct (bias self); reflexivity.
Qed.

Lemma forward_transform_result G x csc edge_type mnn self w :
  fst (fwd_transform G x csc edge_type mnn (self, w)) =
  rbind (size (default_x rzero rone self x edge_type) 0) (fun n =>
  rbind (get_typed_cugraph n csc edge_type (num_relations self) mnn)
    (fun graph =>
  rbind (global "RGCNConvAgg" (RGCNConvAgg G)) (fun agg =>
  rbind (agg (default_x rzero rone self x edge_type) (comp self) graph
           (root_weight self) (String.eqb (aggr self) "mean")) (fun out =>
  rbind (view_m1 (weight self) (out_channels self)) (fun W =>
  matmul rzero radd rmul out W))))).
Proof.
  unfold forward_transform, bind, self_; simpl.
  destruct (size _ 0); simpl; [|reflexivity].
  destruct (get_typed_cugraph _ _ _ _ _); simpl; [|reflexivity].
  destruct (global _ _); simpl; [|reflexivity].
  destruct (a1 _ _ _ _ _); simpl; [|reflexivity].
  destruct (view_m1 _ _); reflexivity.
Qed.

(** *** Slicing and drawing *)

Lemma slice_to_minus1 d rest :
  slice_to (d :: rest) (Some (-1)%Z) = Ok (mkView 0 ((d - 1) :: rest)).
Proof.
  unfold slice_to. change (-1 <? 0)%Z with true. cbv iota.
  do 3 f_equal. lia.
Qed.

Lemma slice_to_None d rest :
  slice_to (d :: rest) None = Ok (mkView 0 (d :: rest)).
Proof. reflexivity. Qed.

Lemma select_minus1 d rest :
  select (S d :: rest) (-1)%Z = Ok (mkView (d * numel rest) rest).
Proof.
  unfold select. change (-1 <? 0)%Z with true. cbv iota.
  replace (Z.of_nat (S d) + -1)%Z with (Z.of_nat d) by lia.
  rewrite (proj2 (Z.leb_le 0 (Z.of_nat d))) by lia.
  rewrite (proj2 (Z.ltb_lt (Z.of_nat d) (Z.of_nat (S d)))) by lia.
  cbn [andb]. now rewrite Nat2Z.id.
Qed.

Lemma draws_length n fi fo g :
  length (fst (draws uniform_ n fi fo g)) = n.
Proof.
  revert g; induction n as [|n IH]; intros g; simpl; [reflexivity|].
  destruct (uniform_ fi fo g) as [x g1].
  specialize (IH g1). destruct (draws uniform_ n fi fo g1) as [xs g2].
  simpl in *. now rewrite IH.
Qed.

Lemma glorot_absent w : glorot uniform_ None w = (Ok None, w).
Proof. reflexivity. Qed.

Lemma glorot_matrix d a b xs w :
  glorot uniform_ (Some (mkTensor d [a; b] xs)) w =
  (Ok (Some (mkTensor d [a; b]
               (fst (draws uniform_ (numel [a; b]) a b (rng w))))),
   mkWorld (snd (draws uniform_ (numel [a; b]) a b (rng w))) (allocs w)).
Proof.
  unfold glorot. cbn [shape rev app device].
  now destruct (draws uniform_ (numel [a; b]) a b (rng w)).
Qed.

Lemma glorot_weight_run self w v fo fi pre xs g :
  rev (v_shape v) = fo :: fi :: pre ->
  draws uniform_ (numel (v_shape v)) fi fo (rng w) = (xs, g) ->
  glorot_weight uniform_ v (self, w) =
  (Ok tt, (set_weight self (write_view (weight self) v xs),
           mkWorld g (allocs w))).
Proof.
  intros Hrev Hd.
  unfold glorot_weight, bind, self_, in_world, assign, glorot.
  cbn [fst snd read_view shape device]. rewrite Hrev, Hd. reflexivity.
Qed.

(** *** [reset_parameters] on a layer whose weight has three dimensions *)

Lemma reset_root_weight self w B I O xs1 g1 c' w2 xs3 g3 :
  shape (weight self) = [S B; I; O] ->
  root_weight self = true ->
  draws uniform_ (numel [B; I; O]) I O (rng w) = (xs1, g1) ->
  glorot uniform_ (comp self) (mkWorld g1 (allocs w)) = (Ok c', w2) ->
  draws uniform_ (numel [I; O]) I O (rng w2) = (xs3, g3) ->
  reset (self, w) =
  (Ok tt,
   (mkLayer (in_channels self) (out_channels self) (num_relations self)
      (num_bases self) (aggr self) true
      (mkTensor (device (weight self)) [S B; I; O]
         (xs1 ++ xs3 ++ skipn (numel [S B; I; O]) (data (weight self))))
      c' (zeros rzero (bias self)),
    mkWorld g3 (allocs w2))).
Proof.
  intros Hsh Hrw H1 H2 H3.
  pose proof (draws_length (numel [B; I; O]) I O (rng w)) as L1.
  rewrite H1 in L1; simpl fst in L1.
  unfold reset_parameters, bind, self_, in_world, assign. cbn [fst snd].
  rewrite Hrw, Hsh, slice_to_minus1, select_minus1. cbn [lift].
  replace (S B - 1) with B by lia.
  rewrite (glorot_weight_run self w (mkView 0 [B; I; O])
             (fo := O) (fi := I) (pre := [B]) (xs := xs1) (g := g1))
    by (try reflexivity; exact H1).
  cbn [fst snd comp set_weight]. rewrite H2.
  rewrite (glorot_weight_run _ w2 (mkView (B * numel [I; O]) [I; O])
             (fo := O) (fi := I) (pre := []) (xs := xs3) (g := g3))
    by (try reflexivity; exact H3).
  unfold set_bias, set_weight, set_comp.
  cbn [fst snd weight comp bias
    in_channels out_channels num_relations num_bases aggr root_weight].
  rewrite Hrw. do 4 f_equal.
  unfold write_view.
  cbn [device shape data v_offset v_shape firstn app skipn Nat.add].
  rewrite Hsh. f_equal.
  assert (E : B * numel [I; O] = numel [B; I; O]) by reflexivity.
  rewrite E.
  assert (F : firstn (numel [B; I; O]) (xs1 ++ skipn (numel [B; I; O])
                (data (weight self))) = xs1).
  { rewrite <- L1. rewrite firstn_app, Nat.sub_diag, firstn_O, app_nil_r.
    apply firstn_all. }
  rewrite F. do 2 f_equal.
  rewrite skipn_app, (skipn_all2 xs1), L1 by lia. cbn [app].
  rewrite skipn_skipn. f_equal.
  change (numel [S B; I; O]) with (S B * numel [I; O]).
  rewrite <- E. lia.
Qed.

Lemma reset_no_root_weight self w B I O xs1 g1 c' w2 :
  shape (weight self) = [B; I; O] ->
  root_weight self = false ->
  draws uniform_ (numel [B; I; O]) I O (rng w) = (xs1, g1) ->
  glorot uniform_ (comp self) (mkWorld g1 (allocs w)) = (Ok c', w2) ->
  reset (self, w) =
  (Ok tt,
   (mkLayer (in_channels self) (out_channels self) (num_relations self)
      (num_bases self) (aggr self) false
      (mkTensor (device (weight self)) [B; I; O]
         (xs1 ++ skipn (numel [B; I; O]) (data (weight self))))
      c' (zeros rzero (bias self)),
    w2)).
Proof.
  intros Hsh Hrw H1 H2.
  unfold reset_parameters, bind, self_, in_world, assign. cbn [fst snd].
  rewrite Hrw, Hsh, slice_to_None. cbn [lift].
  rewrite (glorot_weight_run self w (mkView 0 [B; I; O])
             (fo := O) (fi := I) (pre := [B]) (xs := xs1) (g := g1))
    by (try reflexivity; exact H1).
  cbn [fst snd comp set_weight]. rewrite H2.
  unfold set_bias, set_weight, set_comp.
  cbn [ret fst snd weight comp bias
    in_channels out_channels num_relations num_bases aggr root_weight].
  rewrite Hrw. do 4 f_equal.
  unfold write_view.
  cbn [device shape data v_offset v_shape firstn app skipn Nat.add].
  now rewrite Hsh.
Qed.

(** *** The constructor *)

Lemma aggr_check_valid a :
  valid_aggr a -> existsb (String.eqb a) ["sum"; "add"; "mean"]%string = true.
Proof.
  intros H. apply existsb_exists. exists a. split; [exact H|].
  apply String.eqb_refl.
Qed.

Lemma aggr_check_invalid a :
  ~ valid_aggr a ->
  existsb (String.eqb a) ["sum"; "add"; "mean"]%string = false.
Proof.
  intros H. apply not_true_is_false. intros E.
  apply existsb_exists in E. destruct E as [b [Hin Hb]].
  apply String.eqb_eq in Hb. subst b. contradiction.
Qed.

(** The object and the world on which the constructor calls
    [reset_parameters]. *)
Lemma init_before_reset (I O Rn : nat) (nb : option nat) a (rw b : bool) w :
  valid_aggr a ->
  init I O Rn nb a rw b w =
  match
    reset
      (mkLayer I O Rn nb a rw
         (mkTensor cpu
            [match nb with Some n => n | None => Rn end
             + (if rw then 1 else 0); I; O]
            (map uninit
               (seq 0 (numel [match nb with Some n => n | None => Rn end
                              + (if rw then 1 else 0); I; O]))))
         (match nb with
          | Some n =>
              Some (mkTensor cpu [Rn; n] (map uninit (seq 0 (numel [Rn; n]))))
          | None => None
          end)
         (if b
          then Some (mkTensor cpu [O] (map uninit (seq 0 (numel [O]))))
          else None),
       mkWorld (rng w)
         (allocs w
            ++ [[match nb with Some n => n | None => Rn end
                 + (if rw then 1 else 0); I; O]]
            ++ match nb with Some n => [[Rn; n]] | None => [] end
            ++ if b then [[O]] else []))
  with
  | (Ok _, (self', w')) => (Ok self', w')
  | (Raise e, (_, w')) => (Raise e, w')
  end.
Proof.
  intros Ha. unfold __init__, bind, super_init, torch_Tensor.
  cbn [ret]. rewrite (aggr_check_valid Ha). cbn [negb].
  destruct nb as [n|], b; cbn [ret fst snd rng allocs];
    rewrite <- ?app_assoc; cbn [app]; rewrite ?app_nil_r; reflexivity.
Qed.

Lemma skipn_uninit n :
  skipn n (map uninit (seq 0 n)) = [].
Proof. apply skipn_all2. now rewrite length_map, length_seq. Qed.

Lemma init_valid_explicit (I O Rn : nat) (nb : option nat) (rw b : bool) w :
  exists wdata C w',
    length wdata =
      numel [match nb with Some n => n | None => Rn end
             + (if rw then 1 else 0); I; O] /\
    option_map (@shape R) C = option_map (fun n => [Rn; n]) nb /\
    allocs w' =
      allocs w
        ++ [[match nb with Some n => n | None => Rn end
             + (if rw then 1 else 0); I; O]]
        ++ match nb with Some n => [[Rn; n]] | None => [] end
        ++ (if b then [[O]] else []) /\
    forall a, valid_aggr a ->
      init I O Rn nb a rw b w =
      (Ok (mkLayer I O Rn nb a rw
             (mkTensor cpu
                [match nb with Some n => n | None => Rn end
                 + (if rw then 1 else 0); I; O] wdata)
             C
             (if b then Some (mkTensor cpu [O] (repeat rzero O)) else None)),
       w').
Proof.
  set (B := match nb with Some n => n | None => Rn end).
  set (C0 := match nb with
             | Some n =>
                 Some (mkTensor cpu [Rn; n]
                         (map uninit (seq 0 (numel [Rn; n]))))
             | None => None
             end).
  set (al := (allocs w ++ [[B + (if rw then 1 else 0); I; O]]
               ++ match nb with
                  | Some n => [[Rn; n]]
                  | None => @nil (list nat)
                  end
               ++ (if b then [[O]] else []))%list).
  assert (Hz : zeros rzero
                 (if b
                  then Some (mkTensor cpu [O] (map uninit (seq 0 (numel [O]))))
                  else None)
               = if b then Some (mkTensor cpu [O] (repeat rzero O)) else None).
  { destruct b; [|reflexivity]. unfold zeros. cbn [shape device numel fold_right].
    now rewrite Nat.mul_1_r. }
  assert (HC : forall g, exists C g',
             glorot uniform_ C0 (mkWorld g al) = (Ok C, mkWorld g' al) /\
             option_map (@shape R) C = option_map (fun n => [Rn; n]) nb).
  { intros g. subst C0. destruct nb as [n|].
    - rewrite glorot_matrix. eexists _, _. split; reflexivity.
    - rewrite glorot_absent. eexists _, _. split; reflexivity. }
  destruct rw.
  - destruct (draws uniform_ (numel [B; I; O]) I O (rng w)) as [xs1 g1] eqn:D1.
    destruct (HC g1) as (C & g2 & HgC & HshC).
    destruct (draws uniform_ (numel [I; O]) I O g2) as [xs3 g3] eqn:D3.
    exists (xs1 ++ xs3), C, (mkWorld g3 al).
    pose proof (draws_length (numel [B; I; O]) I O (rng w)) as L1.
    pose proof (draws_length (numel [I; O]) I O g2) as L3.
    rewrite D1 in L1. rewrite D3 in L3. cbn [fst] in L1, L3.
    split; [|split; [exact HshC|split; [reflexivity|]]].
    + rewrite length_app, L1, L3. rewrite Nat.add_1_r.
      change (numel [S B; I; O]) with (S B * numel [I; O]).
      change (numel [B; I; O]) with (B * numel [I; O]). lia.
    + intros a Ha. rewrite (@init_before_reset I O Rn nb a true b w Ha).
      fold B C0 al. rewrite Nat.add_1_r.
      erewrite reset_root_weight;
        [ | reflexivity | reflexivity | exact D1 | exact HgC | exact D3 ].
      cbn [in_channels out_channels num_relations num_bases aggr weight
             device data bias allocs].
      rewrite skipn_uninit, app_nil_r, Hz. reflexivity.
  - destruct (draws uniform_ (numel [B; I; O]) I O (rng w)) as [xs1 g1] eqn:D1.
    destruct (HC g1) as (C & g2 & HgC & HshC).
    exists xs1, C, (mkWorld g2 al).
    pose proof (draws_length (numel [B; I; O]) I O (rng w)) as L1.
    rewrite D1 in L1. cbn [fst] in L1.
    split; [|split; [exact HshC|split; [reflexivity|]]].
    + now rewrite Nat.add_0_r.
    + intros a Ha. rewrite (@init_before_reset I O Rn nb a false b w Ha).
      fold B C0 al. rewrite Nat.add_0_r.
      erewrite reset_no_root_weight;
        [ | reflexivity | reflexivity | exact D1 | exact HgC ].
      cbn [in_channels out_channels num_relations num_bases aggr weight
             device data bias allocs].
      rewrite skipn_uninit, app_nil_r, Hz. reflexivity.
Qed.

Lemma glorot_rank2 (t : Tensor R) a b w :
  shape t = [a; b] ->
  glorot uniform_ (Some t) w =
  (Ok (Some (mkTensor (device t) [a; b]
               (fst (draws uniform_ (numel [a; b]) a b (rng w))))),
   mkWorld (snd (draws uniform_ (numel [a; b]) a b (rng w))) (allocs w)).
Proof.
  intros H. destruct t as [d sh xs]. cbn [shape] in H. subst sh.
  apply glorot_matrix.
Qed.

(** [reset_parameters] cannot fail on a layer whose weight has three
    dimensions (at least one slice when [root_weight]) and whose [comp], if
    present, is a matrix. *)
Lemma reset_total self w (B I O : nat) :
  shape (weight self) = [B + (if root_weight self then 1 else 0); I; O] ->
  (forall c, comp self = Some c -> exists a b, shape c = [a; b]) ->
  exists wd c' w',
    reset (self, w) =
    (Ok tt,
     (mkLayer (in_channels self) (out_channels self) (num_relations self)
        (num_bases self) (aggr self) (root_weight self)
        (mkTensor (device (weight self)) (shape (weight self)) wd)
        c' (zeros rzero (bias self)),
      w')) /\
    option_map (@shape R) c' = option_map (@shape R) (comp self) /\
    allocs w' = allocs w.
Proof.
  intros Hsh Hc.
  assert (HC : forall g, exists c' g',
             glorot uniform_ (comp self) (mkWorld g (allocs w))
             = (Ok c', mkWorld g' (allocs w)) /\
             option_map (@shape R) c' = option_map (@shape R) (comp self)).
  { intros g. destruct (comp self) as [c|].
    - destruct (Hc c eq_refl) as (a & b & Hab).
      rewrite (glorot_rank2 c _ Hab). eexists _, _. split; [reflexivity|].
      cbn [option_map shape]. now rewrite Hab.
    - rewrite glorot_absent. eexists _, _. split; reflexivity. }
  destruct (draws uniform_ (numel [B; I; O]) I O (rng w)) as [xs1 g1] eqn:D1.
  destruct (HC g1) as (c' & g2 & HgC & HshC).
  destruct (root_weight self) eqn:Hrw.
  - rewrite Nat.add_1_r in Hsh.
    destruct (draws uniform_ (numel [I; O]) I O g2) as [xs3 g3] eqn:D3.
    eexists _, c', _. split; [|split; [exact HshC|]].
    + rewrite Hsh.
      apply (@reset_root_weight self w B I O xs1 g1 c' _ xs3 g3 Hsh Hrw D1 HgC).
      exact D3.
    + reflexivity.
  - rewrite Nat.add_0_r in Hsh.
    eexists _, c', _. split; [|split; [exact HshC|]].
    + rewrite Hsh.
      apply (@reset_no_root_weight self w B I O xs1 g1 c' _ Hsh Hrw D1 HgC).
    + reflexivity.
Qed.

(** *** Index arithmetic of row-major storage *)

Lemma nth_flat_rows (f : nat -> nat -> R) p n s i j d :
  i < n -> j < p ->
  nth (i * p + j)
    (flat_map (fun a => map (f a) (seq 0 p)) (seq s n)) d = f (s + i) j.
Proof.
  revert s i. induction n as [|n IH]; intros s i Hi Hj; [lia|].
  cbn [seq flat_map]. destruct i as [|i].
  - cbn [Nat.mul Nat.add]. rewrite app_nth1 by now rewrite length_map, length_seq.
    rewrite (nth_indep _ d (f s 0)) by now rewrite length_map, length_seq.
    rewrite map_nth, seq_nth by exact Hj. now rewrite Nat.add_0_r.
  - rewrite app_nth2 by (rewrite length_map, length_seq; cbn; lia).
    rewrite length_map, length_seq.
    replace (S i * p + j - p) with (i * p + j) by (cbn; lia).
    rewrite IH by lia. f_equal. lia.
Qed.


Lemma eye_entry n d i j :
  i < n -> j < n ->
  nth (i * n + j) (data (I_ n d)) rzero = if i =? j then rone else rzero.
Proof.
  intros Hi Hj. unfold eye. cbn [data].
  now rewrite (nth_flat_rows (fun a b => if a =? b then rone else rzero)).
Qed.

Lemma view_m1_weight (t : Tensor R) (B I O : nat) :
  shape t = [B; I; O] -> O <> 0 ->
  view_m1 t O = Ok (mkTensor (device t) [B * I; O] (data t)).
Proof.
  intros Hsh HO. unfold view_m1. rewrite Hsh.
  destruct (Nat.eqb_spec O 0) as [E|_]; [contradiction|].
  assert (E : numel [B; I; O] = B * I * O) by (cbn; lia).
  rewrite E, Nat.Div0.mod_mul, Nat.eqb_refl, Nat.div_mul by exact HO.
  reflexivity.
Qed.

(** Adding a vector of length [p] to an [n x p] matrix adds it to every
    row. *)
Lemma add_rows (a b : Tensor R) n p :
  shape a = [n; p] -> shape b = [p] -> device a = device b ->
  add rzero radd a b =
  Ok (mkTensor (device a) [n; p]
        (map (fun i => radd (nth i (data a) rzero)
                            (nth (i mod p) (data b) rzero))
             (seq 0 (n * p)))).
Proof.
  intros Ha Hb Hd. unfold add, common_device, broadcast_shapes.
  rewrite Ha, Hb, <- Hd.
  assert (Ed : device_eqb (device a) (device a) = true).
  { destruct (device a); cbn; [reflexivity|apply Nat.eqb_refl]. }
  rewrite Ed. cbn [rev app broadcast_rev]. rewrite Nat.eqb_refl.
  cbn [option_map rev app length pad_shape Nat.sub repeat].
  do 2 f_equal.
  replace (numel [n; p]) with (n * p) by (cbn; lia).
  apply map_ext_in. intros i Hi. apply in_seq in Hi.
  assert (Hp : p <> 0) by (intros ->; lia).
  cbn [unravel ravel_bc numel fold_right]. rewrite !Nat.mul_1_r.
  rewrite Nat.div_1_r, !Nat.add_0_r.
  assert (Hq : i / p < n) by (apply Nat.Div0.div_lt_upper_bound; lia).
  assert (Hr : i mod p < p) by (apply Nat.mod_upper_bound; exact Hp).
  f_equal; f_equal.
  - pose proof (Nat.div_mod_eq i p) as Hdm.
    destruct (Nat.eqb_spec n 1) as [->|_], (Nat.eqb_spec p 1) as [->|_]; nia.
  - cbn [Nat.eqb Nat.mul Nat.add].
    destruct (Nat.eqb_spec p 1) as [->|_]; lia.
Qed.

Lemma matmul_2d (a b : Tensor R) n m p :
  shape a = [n; m] -> shape b = [m; p] -> device a = device b ->
  matmul rzero radd rmul a b =
  Ok (mkTensor (device a) [n; p]
        (flat_map
           (fun i => map (fun j => dot rzero radd rmul (data a) (data b) m p i j)
                         (seq 0 p))
           (seq 0 n))).
Proof.
  intros Ha Hb Hd. unfold matmul. rewrite Ha, Hb, <- Hd.
  cbn [rev app]. rewrite Nat.eqb_refl.
  assert (Ed : device_eqb (device a) (device a) = true).
  { destruct (device a); cbn; [reflexivity|apply Nat.eqb_refl]. }
  rewrite Ed. cbn [andb numel fold_right]. now rewrite Nat.mul_1_r.
Qed.


(** *** The constructor on the object under construction *)

Lemma reset_of_init (I O Rn : nat) (nb : option nat) a (rw b : bool) w
    self w' :
  valid_aggr a ->
  init I O Rn nb a rw b w = (Ok self, w') ->
  reset
    (mkLayer I O Rn nb a rw
       (mkTensor cpu
          [match nb with Some n => n | None => Rn end
           + (if rw then 1 else 0); I; O]
          (map uninit
             (seq 0 (numel [match nb with Some n => n | None => Rn end
                            + (if rw then 1 else 0); I; O]))))
       (match nb with
        | Some n =>
            Some (mkTensor cpu [Rn; n] (map uninit (seq 0 (numel [Rn; n]))))
        | None => None
        end)
       (if b
        then Some (mkTensor cpu [O] (map uninit (seq 0 (numel [O]))))
        else None),
     mkWorld (rng w)
       (allocs w
          ++ [[match nb with Some n => n | None => Rn end
               + (if rw then 1 else 0); I; O]]
          ++ match nb with Some n => [[Rn; n]] | None => [] end
          ++ if b then [[O]] else []))
  = (Ok tt, (self, w'))
  /\ in_channels self = I /\ out_channels self = O
  /\ num_relations self = Rn /\ num_bases self = nb
  /\ aggr self = a /\ root_weight self = rw.
Proof.
  intros Ha H.
  destruct (init_valid_explicit I O Rn nb rw b w)
    as (wd & C & w0 & _ & _ & _ & Hc).
  specialize (Hc a Ha). rewrite H in Hc. injection Hc as Hs Hw.
  rewrite (@init_before_reset I O Rn nb a rw b w Ha) in H.
  split; [|rewrite Hs; repeat split].
  match type of H with
  | match ?r with _ => _ end = _ =>
      destruct r as [[[]|e] [l' w'']]; [|discriminate]
  end.
  now injection H as -> ->.
Qed.

(** The statement-by-statement constructor, run on the bare object, ends
    with the slots holding the layer that [__init__] returns. *)
Lemma init_object_valid (I O Rn : nat) (nb : option nat) a (rw b : bool) w
    self w' :
  valid_aggr a ->
  init I O Rn nb a rw b w = (Ok self, w') ->
  init_obj I O Rn nb a rw b (no_attrs R, w)
  = (Ok tt, (attrs_of_layer self, w')).
Proof.
  intros Ha H.
  destruct (reset_of_init I O Rn nb rw b w Ha H)
    as (Hr & Hi & Ho & Hn & Hb & Hag & Hrw).
  unfold init_object, bind, on_world, super_init, setattr, torch_Tensor.
  cbn [ret fst snd]. rewrite (aggr_check_valid Ha). cbn [negb].
  unfold call_reset_parameters, attrs_of_layer.
  rewrite Hi, Ho, Hn, Hb, Hag, Hrw.
  destruct nb as [n|], b; cbn [ret fst snd rng allocs] in Hr |- *;
    unfold layer_of_attrs;
    cbn [with_in_channels with_out_channels with_num_relations with_num_bases
           with_aggr with_root_weight with_weight with_comp with_bias
           a_in_channels a_out_channels a_num_relations a_num_bases a_aggr
           a_root_weight a_weight a_comp a_bias no_attrs getattr rbind
           fst snd];
    rewrite <- ?app_assoc; cbn [app] in Hr |- *; rewrite ?app_nil_r in *;
    rewrite Hr; reflexivity.
Qed.

(** *** The claims *)

(** C1 (amended).  When [x] is absent, [forward] substitutes the identity
    matrix of size [in_channels] x [in_channels] (ones on the diagonal, zeros
    elsewhere), placed on the device of [edge_type]; its number of rows,
    [in_channels], is the node count handed to the graph builder; and the
    call behaves exactly as the call that is given this identity matrix as
    [x]. *)
Theorem forward_default_features G csc edge_type mnn self w :
  default_x rzero rone self None edge_type
    = I_ (in_channels self) (device edge_type)
  /\ shape (default_x rzero rone self None edge_type)
     = [in_channels self; in_channels self]
  /\ device (default_x rzero rone self None edge_type) = device edge_type
  /\ (forall i j, i < in_channels self -> j < in_channels self ->
      nth (i * in_channels self + j)
        (data (default_x rzero rone self None edge_type)) rzero
      = if i =? j then rone else rzero)
  /\ size (default_x rzero rone self None edge_type) 0 = Ok (in_channels self)
  /\ fwd G None csc edge_type mnn (self, w)
     = fwd G (Some (I_ (in_channels self) (device edge_type)))
         csc edge_type mnn (self, w)
  /\ fst (fwd G None csc edge_type mnn (self, w))
     = rbind (get_typed_cugraph (in_channels self) csc edge_type
                (num_relations self) mnn) (fun graph =>
       rbind (global "RGCNConvAgg" (RGCNConvAgg G)) (fun agg =>
       rbind (agg (I_ (in_channels self) (device edge_type)) (comp self)
                graph (root_weight self) (String.eqb (aggr self) "mean"))
         (fun out =>
       rbind (view_m1 (weight self) (out_channels self)) (fun W =>
       rbind (matmul rzero radd rmul out W) (fun out' =>
       match bias self with
       | Some b => add rzero radd out' b
       | None => Ok out'
       end)))))
  /\ (forall e,
      get_typed_cugraph (in_channels self) csc edge_type (num_relations self)
        mnn = Raise e ->
      fst (fwd G None csc edge_type mnn (self, w)) = Raise e).
Proof.
  split; [reflexivity|split; [reflexivity|split; [reflexivity|
    split; [|split; [reflexivity|split; [reflexivity|split]]]]]].
  - intros i j Hi Hj. now apply eye_entry.
  - now rewrite forward_result.
  - intros e He. rewrite forward_result. cbn [default_x size eye shape
      nth_error rbind]. now rewrite He.
Qed.

(** C2.  The constructor succeeds for the aggregations "sum", "add" and
    "mean", and the object it was given then holds the returned layer.  For
    any other string it raises [ValueError] with nothing changed: no slot of
    the object has been assigned, nothing was requested from the allocator
    and the random generator was not advanced. *)
Theorem init_aggr_check (I O Rn : nat) (nb : option nat) a (rw b : bool) w :
  (valid_aggr a ->
   exists self w',
     init I O Rn nb a rw b w = (Ok self, w')
     /\ init_obj I O Rn nb a rw b (no_attrs R, w)
        = (Ok tt, (attrs_of_layer self, w')))
  /\ (~ valid_aggr a ->
      init I O Rn nb a rw b w = (Raise (ValueError (aggr_error a)), w)
      /\ forall o,
           init_obj I O Rn nb a rw b (o, w)
           = (Raise (ValueError (aggr_error a)), (o, w))).
Proof.
  split.
  - intros Ha.
    destruct (init_valid_explicit I O Rn nb rw b w) as (wd & C & w' & _ & _ & _ & H).
    eexists _, w'. split; [exact (H a Ha)|].
    exact (init_object_valid I O Rn nb rw b w Ha (H a Ha)).
  - intros Ha. split.
    + unfold __init__, bind, super_init. cbn [ret].
      now rewrite (aggr_check_invalid Ha).
    + intros o. unfold init_object, bind, on_world, super_init.
      cbn [ret fst snd]. now rewrite (aggr_check_invalid Ha).
Qed.

(** C3.  Shapes after a successful construction: the weight is
    [(Bn + d, I, O)] when [num_bases = Bn] is given and [(R + d, I, O)]
    otherwise, with [d = 1] when [root_weight] and [0] when not; [comp] is
    [(R, Bn)] when [num_bases] is given and absent otherwise; the bias is
    [(O,)] when requested and absent otherwise. *)
Theorem init_shapes (I O Rn : nat) (nb : option nat) a (rw b : bool) w :
  valid_aggr a ->
  exists self w',
    init I O Rn nb a rw b w = (Ok self, w')
    /\ shape (weight self)
       = [match nb with Some Bn => Bn | None => Rn end
          + (if rw then 1 else 0); I; O]
    /\ option_map (@shape R) (comp self) = option_map (fun Bn => [Rn; Bn]) nb
    /\ option_map (@shape R) (bias self) = if b then Some [O] else None.
Proof.
  intros Ha.
  destruct (init_valid_explicit I O Rn nb rw b w)
    as (wd & C & w' & _ & HC & _ & H).
  eexists _, w'. split; [exact (H a Ha)|].
  cbn [weight comp bias shape]. repeat split; [exact HC|].
  now destruct b.
Qed.


(** C5.  With a bias [b], [forward] returns what the same layer without bias
    returns, plus [b]; on an output of shape [(n, O)] and a bias of shape
    [(O,)] the sum adds [b] to each of the [n] rows.  Without bias the
    output is the projected kernel output, with no addition. *)
Theorem forward_bias_law G x csc edge_type mnn self w (b : Tensor R) :
  fst (fwd G x csc edge_type mnn (set_bias self (Some b), w))
  = rbind (fst (fwd G x csc edge_type mnn (set_bias self None, w)))
      (fun out => add rzero radd out b)
  /\ fst (fwd G x csc edge_type mnn (set_bias self None, w))
     = fst (fwd_transform G x csc edge_type mnn (set_bias self None, w))
  /\ (forall out n O,
      fst (fwd G x csc edge_type mnn (set_bias self None, w)) = Ok out ->
      shape out = [n; O] -> shape b = [O] -> device out = device b ->
      fst (fwd G x csc edge_type mnn (set_bias self (Some b), w))
      = Ok (mkTensor (device out) [n; O]
              (map (fun i => radd (nth i (data out) rzero)
                                  (nth (i mod O) (data b) rzero))
                   (seq 0 (n * O))))).
Proof.
  assert (E : fst (fwd G x csc edge_type mnn (set_bias self (Some b), w))
              = rbind (fst (fwd G x csc edge_type mnn (set_bias self None, w)))
                  (fun out => add rzero radd out b)).
  { rewrite !forward_result. unfold set_bias, default_x.
    cbn [in_channels out_channels num_relations num_bases aggr root_weight
           weight comp bias].
    destruct (size _ 0); cbn [rbind]; [|reflexivity].
    destruct (get_typed_cugraph _ _ _ _ _); cbn [rbind]; [|reflexivity].
    destruct (global _ _); cbn [rbind]; [|reflexivity].
    destruct (a1 _ _ _ _ _); cbn [rbind]; [|reflexivity].
    destruct (view_m1 _ _); cbn [rbind]; [|reflexivity].
    destruct (matmul _ _ _ _ _); reflexivity. }
  split; [exact E|split].
  - rewrite forward_result, forward_transform_result.
    unfold set_bias. cbn [bias].
    destruct (size _ 0); cbn [rbind]; [|reflexivity].
    destruct (get_typed_cugraph _ _ _ _ _); cbn [rbind]; [|reflexivity].
    destruct (global _ _); cbn [rbind]; [|reflexivity].
    destruct (a1 _ _ _ _ _); cbn [rbind]; [|reflexivity].
    destruct (view_m1 _ _); cbn [rbind]; [|reflexivity].
    destruct (matmul _ _ _ _ _); reflexivity.
  - intros out n O Hout Hsh Hb Hd. rewrite E, Hout. cbn [rbind].
    now apply add_rows.
Qed.

(** C6.  Without the kernel package the guarded import leaves the name
    [RGCNConvAgg] unbound and the module still loads; the constructor
    succeeds for every valid aggregation; [forward] never returns a result
    and leaves the layer unchanged, and once the graph handle is built the
    exception is the [NameError] of the unbound name, passed on as it is. *)
Theorem missing_kernel :
  import_module (R := R) (Graph := Graph) None = Ok (mkGlobals None)
  /\ (forall (I O Rn : nat) (nb : option nat) a (rw b : bool) w,
      valid_aggr a -> exists self w', init I O Rn nb a rw b w = (Ok self, w'))
  /\ (forall x csc edge_type mnn self w,
      is_ok (fst (fwd (mkGlobals None) x csc edge_type mnn (self, w))) = false
      /\ snd (fwd (mkGlobals None) x csc edge_type mnn (self, w)) = (self, w))
  /\ (forall x csc edge_type mnn self w n graph,
      size (default_x rzero rone self x edge_type) 0 = Ok n ->
      get_typed_cugraph n csc edge_type (num_relations self) mnn = Ok graph ->
      fst (fwd (mkGlobals None) x csc edge_type mnn (self, w))
      = Raise (NameError "RGCNConvAgg")).
Proof.
  split; [reflexivity|split; [|split]].
  - intros I O Rn nb a rw b w Ha.
    destruct (init_valid_explicit I O Rn nb rw b w) as (wd & C & w' & _ & _ & _ & H).
    eexists _, w'. exact (H a Ha).
  - intros x csc edge_type mnn self w. split; [|apply forward_state].
    rewrite forward_result. cbn [RGCNConvAgg global].
    destruct (size _ 0); cbn [rbind is_ok]; [|reflexivity].
    destruct (get_typed_cugraph _ _ _ _ _); reflexivity.
  - intros x csc edge_type mnn self w n graph Hn Hg.
    rewrite forward_result, Hn. cbn [rbind]. rewrite Hg. reflexivity.
Qed.

(** C7.  [reset_parameters] on a weight of shape [(B + d, I, O)]: the first
    [B] slices are filled by one Glorot fill (all slices but the last when
    [root_weight], the whole tensor when not); [comp] is then filled by
    Glorot when present; when [root_weight] the last slice is filled by a
    further, independent Glorot fill; the bias is zero-filled when present.
    After construction the bias, if present, is the zero vector. *)
Theorem reset_parameters_fills self w (B I O : nat) xs1 g1 c' w2 :
  shape (weight self) = [B + (if root_weight self then 1 else 0); I; O] ->
  length (data (weight self)) = numel (shape (weight self)) ->
  draws uniform_ (numel [B; I; O]) I O (rng w) = (xs1, g1) ->
  glorot uniform_ (comp self) (mkWorld g1 (allocs w)) = (Ok c', w2) ->
  (root_weight self = true ->
   forall xs3 g3,
     draws uniform_ (numel [I; O]) I O (rng w2) = (xs3, g3) ->
     reset (self, w)
     = (Ok tt,
        (set_bias
           (set_comp
              (set_weight self
                 (mkTensor (device (weight self)) [B + 1; I; O] (xs1 ++ xs3)))
              c')
           (zeros rzero (bias self)),
         mkWorld g3 (allocs w2))))
  /\ (root_weight self = false ->
      reset (self, w)
      = (Ok tt,
         (set_bias
            (set_comp
               (set_weight self
                  (mkTensor (device (weight self)) [B; I; O] xs1))
               c')
            (zeros rzero (bias self)),
          w2)))
  /\ (comp self = None -> c' = None /\ w2 = mkWorld g1 (allocs w))
  /\ (forall c a b, comp self = Some c -> shape c = [a; b] ->
      c' = Some (mkTensor (device c) [a; b]
                   (fst (draws uniform_ (numel [a; b]) a b g1))))
  /\ (forall t, zeros rzero (Some t)
                = Some (mkTensor (device t) (shape t)
                          (repeat rzero (numel (shape t)))))
  /\ zeros rzero None = None
  /\ (forall (I' O' Rn : nat) (nb : option nat) a (rw b : bool) w0,
      valid_aggr a ->
      exists self' w',
        init I' O' Rn nb a rw b w0 = (Ok self', w')
        /\ bias self'
           = if b then Some (mkTensor cpu [O'] (repeat rzero O')) else None).
Proof.
  intros Hsh Hlen H1 H2.
  split; [|split; [|split; [|split; [|split; [|split]]]]].
  - intros Hrw xs3 g3 H3. rewrite Hrw, Nat.add_1_r in Hsh.
    rewrite (@reset_root_weight self w B I O xs1 g1 c' w2 xs3 g3 Hsh Hrw H1 H2 H3).
    rewrite Hsh in Hlen. rewrite <- Hlen, skipn_all, app_nil_r.
    unfold set_bias, set_comp, set_weight.
    cbn [in_channels out_channels num_relations num_bases aggr root_weight
           weight comp bias].
    now rewrite Hrw, Nat.add_1_r.
  - intros Hrw. rewrite Hrw, Nat.add_0_r in Hsh.
    rewrite (@reset_no_root_weight self w B I O xs1 g1 c' w2 Hsh Hrw H1 H2).
    rewrite Hsh in Hlen. rewrite <- Hlen, skipn_all, app_nil_r.
    unfold set_bias, set_comp, set_weight.
    cbn [in_channels out_channels num_relations num_bases aggr root_weight
           weight comp bias].
    now rewrite Hrw.
  - intros Hc. rewrite Hc, glorot_absent in H2. now inversion H2.
  - intros c a b Hc Hab. rewrite Hc, (glorot_rank2 c _ Hab) in H2.
    now inversion H2.
  - reflexivity.
  - reflexivity.
  - intros I' O' Rn nb a rw b w0 Ha.
    destruct (init_valid_explicit I' O' Rn nb rw b w0)
      as (wd & C & w' & _ & _ & _ & H).
    eexists _, w'. split; [exact (H a Ha)|reflexivity].
Qed.

(** C8.  [forward] leaves the layer and the world as they were, its result
    does not depend on the world, and calling it again in the state it left
    gives the same result. *)
Theorem forward_frame G x csc edge_type mnn self w w2 :
  snd (fwd G x csc edge_type mnn (self, w)) = (self, w)
  /\ fst (fwd G x csc edge_type mnn (self, w))
     = fst (fwd G x csc edge_type mnn (self, w2))
  /\ fst (fwd G x csc edge_type mnn
            (snd (fwd G x csc edge_type mnn (self, w))))
     = fst (fwd G x csc edge_type mnn (self, w)).
Proof.
  split; [apply forward_state|split].
  - now rewrite !forward_result.
  - now rewrite forward_state.
Qed.

Lemma forward_aggr_test G x csc edge_type mnn self w a1 a2 :
  String.eqb a1 "mean" = String.eqb a2 "mean" ->
  fst (fwd G x csc edge_type mnn (set_aggr self a1, w))
  = fst (fwd G x csc edge_type mnn (set_aggr self a2, w)).
Proof.
  intros E. rewrite !forward_result. unfold set_aggr, default_x.
  cbn [in_channels out_channels num_relations num_bases aggr root_weight
         weight comp bias].
  now rewrite E.
Qed.

(** C9.  Constructing with "sum" or with "add" from the same world gives
    layers that differ in the field [aggr] only, and two layers that differ
    only in that "sum" stands for "add" return the same from [forward] on
    every input. *)
Theorem sum_add_same_output G x csc edge_type mnn self w
    (I O Rn : nat) (nb : option nat) (rw b : bool) w0 :
  fst (fwd G x csc edge_type mnn (set_aggr self "sum", w))
  = fst (fwd G x csc edge_type mnn (set_aggr self "add", w))
  /\ exists l w',
       init I O Rn nb "sum" rw b w0 = (Ok (set_aggr l "sum"), w')
       /\ init I O Rn nb "add" rw b w0 = (Ok (set_aggr l "add"), w')
       /\ fst (fwd G x csc edge_type mnn (set_aggr l "sum", w'))
          = fst (fwd G x csc edge_type mnn (set_aggr l "add", w')).
Proof.
  split; [now apply forward_aggr_test|].
  destruct (init_valid_explicit I O Rn nb rw b w0)
    as (wd & C & w' & _ & _ & _ & H).
  eexists (mkLayer I O Rn nb "sum" rw _ C _), w'.
  split; [|split].
  - apply H. cbn. auto.
  - apply H. cbn. auto.
  - now apply forward_aggr_test.
Qed.

(** C10.  For every valid configuration the constructor succeeds, [comp] is
    absent exactly when [num_bases] is not given and the bias exactly when
    it is not requested; [reset_parameters] then succeeds from any world,
    keeps every shape and leaves absent parameters absent, the initialisers
    doing nothing on an absent argument. *)
Theorem reset_parameters_total (I O Rn : nat) (nb : option nat) a (rw b : bool)
    w w2 :
  valid_aggr a ->
  exists self w',
    init I O Rn nb a rw b w = (Ok self, w')
    /\ (comp self = None <-> nb = None)
    /\ (bias self = None <-> b = false)
    /\ (exists self2 w3,
          reset (self, w2) = (Ok tt, (self2, w3))
          /\ shape (weight self2) = shape (weight self)
          /\ option_map (@shape R) (comp self2)
             = option_map (@shape R) (comp self)
          /\ option_map (@shape R) (bias self2)
             = option_map (@shape R) (bias self)
          /\ (nb = None -> comp self2 = None)
          /\ (b = false -> bias self2 = None))
    /\ glorot uniform_ None w2 = (Ok None, w2)
    /\ zeros rzero None = None.
Proof.
  intros Ha.
  destruct (init_valid_explicit I O Rn nb rw b w)
    as (wd & C & w' & _ & HC & _ & H).
  eexists _, w'. split; [exact (H a Ha)|].
  cbn [weight comp bias shape].
  assert (HCn : C = None <-> nb = None).
  { destruct C, nb; cbn in HC; split; congruence. }
  split; [exact HCn|]. split; [destruct b; split; congruence|].
  split; [|split; reflexivity].
  edestruct (@reset_total
               (mkLayer I O Rn nb a rw
                  (mkTensor cpu
                     [match nb with Some n => n | None => Rn end
                      + (if rw then 1 else 0); I; O] wd)
                  C (if b then Some (mkTensor cpu [O] (repeat rzero O))
                     else None))
               w2 (match nb with Some n => n | None => Rn end) I O)
    as (wd2 & c2 & w3 & Hr & Hc2 & _).
  - reflexivity.
  - cbn [comp]. intros c Hc. rewrite Hc in HC.
    destruct nb as [n|]; cbn in HC; [|discriminate].
    exists Rn, n. congruence.
  - eexists _, w3. split; [exact Hr|].
    cbn [weight comp bias shape] in *. split; [reflexivity|].
    split; [exact Hc2|]. split; [now destruct b|]. split.
    + intros Hn. apply HCn in Hn. subst C. now destruct c2.
    + intros ->. reflexivity.
Qed.

(** *** Further facts on the tensor operations *)

Lemma device_eqb_eq a b : device_eqb a b = true <-> a = b.
Proof.
  destruct a as [|i], b as [|j]; cbn; split; intros H;
    try reflexivity; try discriminate.
  - apply Nat.eqb_eq in H. now subst.
  - inversion H. apply Nat.eqb_refl.
Qed.

Lemma numel_app a b : numel (a ++ b) = numel a * numel b.
Proof.
  induction a as [|x a IH]; cbn [app numel fold_right].
  - fold (numel b). lia.
  - fold (numel (a ++ b)) (numel a). rewrite IH. lia.
Qed.

Lemma numel_rev a : numel (rev a) = numel a.
Proof.
  induction a as [|x a IH]; [reflexivity|].
  cbn [rev]. rewrite numel_app, IH.
  change (numel [x]) with (x * 1). change (numel (x :: a)) with (x * numel a).
  lia.
Qed.

Lemma length_flat_rows (f : nat -> nat -> R) p n s :
  length (flat_map (fun a => map (f a) (seq 0 p)) (seq s n)) = n * p.
Proof.
  revert s. induction n as [|n IH]; intros s; [reflexivity|].
  cbn [seq flat_map]. rewrite length_app, length_map, length_seq, IH. lia.
Qed.

Lemma map_nth_all (l : list R) d :
  map (fun i => nth i l d) (seq 0 (length l)) = l.
Proof.
  apply nth_ext with (d := d) (d' := d).
  - now rewrite length_map, length_seq.
  - intros i Hi. rewrite length_map, length_seq in Hi.
    rewrite (nth_indep _ d (nth 0 l d))
      by now rewrite length_map, length_seq.
    rewrite (map_nth (fun i => nth i l d)), seq_nth by exact Hi.
    reflexivity.
Qed.

Lemma ravel_unravel sh i : i < numel sh -> ravel_bc sh (unravel sh i) = i.
Proof.
  revert i. induction sh as [|d rest IH]; intros i Hi.
  - cbn in *. lia.
  - cbn [unravel ravel_bc]. change (numel (d :: rest)) with (d * numel rest) in Hi.
    assert (Hn : numel rest <> 0) by (intros E; rewrite E in Hi; lia).
    rewrite IH by (apply Nat.mod_upper_bound; exact Hn).
    pose proof (Nat.div_mod_eq i (numel rest)) as Hdm.
    destruct (Nat.eqb_spec d 1) as [->|_]; [|lia].
    rewrite Nat.mod_small by lia. lia.
Qed.

Lemma broadcast_last pre (O : nat) :
  broadcast_shapes (pre ++ [O]) [O] = Some (pre ++ [O]).
Proof.
  unfold broadcast_shapes. rewrite rev_app_distr. cbn [rev app broadcast_rev].
  assert (E : broadcast_rev (rev pre) [] = Some (rev pre))
    by (destruct (rev pre); reflexivity).
  rewrite E, Nat.eqb_refl. cbn [option_map rev].
  now rewrite rev_involutive.
Qed.

(** What a successful [view(-1, c)], [@] and [+] say about their
    operands and their result. *)
Lemma view_m1_ok (t W : Tensor R) c :
  view_m1 t c = Ok W ->
  c <> 0 /\ W = mkTensor (device t) [numel (shape t) / c; c] (data t).
Proof.
  unfold view_m1. destruct (Nat.eqb_spec c 0) as [E|E]; [discriminate|].
  destruct (numel (shape t) mod c =? 0); [|discriminate].
  intros H. inversion H. auto.
Qed.

Lemma matmul_ok (a b out : Tensor R) :
  matmul rzero radd rmul a b = Ok out ->
  exists pre m p,
    shape a = pre ++ [m] /\ shape b = [m; p] /\ device a = device b
    /\ shape out = pre ++ [p] /\ device out = device a /\ tensor_ok out.
Proof.
  unfold matmul. destruct (rev (shape a)) as [|m rpre] eqn:Ha; [discriminate|].
  destruct (shape b) as [|m' [|p [|? ?]]] eqn:Hb; try discriminate.
  destruct (device_eqb (device a) (device b) && (m =? m')) eqn:E;
    [|discriminate].
  apply andb_true_iff in E. destruct E as [Ed Em].
  apply device_eqb_eq in Ed. apply Nat.eqb_eq in Em. subst m'.
  intros H. inversion H; subst out; clear H.
  exists (rev rpre), m, p. cbn [shape device data].
  repeat split; try assumption.
  - rewrite <- (rev_involutive (shape a)), Ha. reflexivity.
  - unfold tensor_ok. cbn [shape data].
    rewrite length_flat_rows, numel_app, numel_rev. cbn. lia.
Qed.

Lemma add_ok (a b out : Tensor R) :
  add rzero radd a b = Ok out ->
  broadcast_shapes (shape a) (shape b) = Some (shape out)
  /\ common_device a b = Some (device out) /\ tensor_ok out.
Proof.
  unfold add. destruct (common_device a b) as [d|]; [|discriminate].
  destruct (broadcast_shapes (shape a) (shape b)) as [sh|]; [|discriminate].
  intros H. inversion H; subst out; clear H. cbn [shape device].
  repeat split. unfold tensor_ok. cbn [shape data].
  now rewrite length_map, length_seq.
Qed.

(** Adding a vector of zeros of the width of the last dimension changes
    nothing, provided zero is neutral on the right for the scalar sum. *)
Lemma add_zero_vector (a : Tensor R) pre (O : nat) d :
  (forall r, radd r rzero = r) ->
  shape a = pre ++ [O] -> tensor_ok a -> device a = d ->
  add rzero radd a (mkTensor d [O] (repeat rzero O)) = Ok a.
Proof.
  intros H0 Hsh Hok Hd. unfold add, common_device. cbn [shape device data].
  rewrite Hsh, broadcast_last, Hd.
  rewrite (proj2 (device_eqb_eq d d) eq_refl).
  unfold pad_shape. rewrite Nat.sub_diag. cbn [repeat app].
  destruct a as [da sa xa]. cbn [shape device data] in *. subst sa da.
  f_equal. f_equal. unfold tensor_ok in Hok. cbn [shape data] in Hok.
  rewrite <- Hok. rewrite <- (map_nth_all xa rzero) at 2.
  apply map_ext_in. intros i Hi. apply in_seq in Hi.
  rewrite ravel_unravel by (rewrite <- Hok; lia).
  assert (Z : forall n k, nth k (repeat rzero n) rzero = rzero).
  { induction n as [|n IHn]; intros [|k]; cbn; auto. }
  now rewrite Z, H0.
Qed.

(** *** The constructor in closed form *)

(** The parameters of a constructed layer are successive draws from the
    generator: the relation (or basis) slices of the weight, then [comp],
    then the root slice. *)
Lemma init_closed_form (I O Rn : nat) (nb : option nat) (rw : bool) w :
  let B := match nb with Some n => n | None => Rn end in
  let d1 := draws uniform_ (numel [B; I; O]) I O (rng w) in
  let g2 := match nb with
            | Some n => snd (draws uniform_ (numel [Rn; n]) Rn n (snd d1))
            | None => snd d1
            end in
  let d3 := draws uniform_ (numel [I; O]) I O g2 in
  forall a (b : bool), valid_aggr a ->
    init I O Rn nb a rw b w
    = (Ok (mkLayer I O Rn nb a rw
             (mkTensor cpu [B + (if rw then 1 else 0); I; O]
                (fst d1 ++ if rw then fst d3 else []))
             (match nb with
              | Some n =>
                  Some (mkTensor cpu [Rn; n]
                          (fst (draws uniform_ (numel [Rn; n]) Rn n (snd d1))))
              | None => None
              end)
             (if b then Some (mkTensor cpu [O] (repeat rzero O)) else None)),
       mkWorld (if rw then snd d3 else g2)
         (allocs w
            ++ [[B + (if rw then 1 else 0); I; O]]
            ++ match nb with Some n => [[Rn; n]] | None => [] end
            ++ (if b then [[O]] else []))).
Proof.
  intros B d1 g2 d3 a b Ha.
  rewrite (@init_before_reset I O Rn nb a rw b w Ha). fold B.
  set (al := (allocs w ++ [[B + (if rw then 1 else 0); I; O]]
               ++ match nb with
                  | Some n => [[Rn; n]]
                  | None => @nil (list nat)
                  end
               ++ (if b then [[O]] else []))%list).
  set (C0 := match nb with
             | Some n =>
                 Some (mkTensor cpu [Rn; n]
                         (map uninit (seq 0 (numel [Rn; n]))))
             | None => None
             end).
  assert (Hz : zeros rzero
                 (if b
                  then Some (mkTensor cpu [O] (map uninit (seq 0 (numel [O]))))
                  else None)
               = if b then Some (mkTensor cpu [O] (repeat rzero O)) else None).
  { destruct b; [|reflexivity]. unfold zeros.
    cbn [shape device numel fold_right]. now rewrite Nat.mul_1_r. }
  assert (HC : glorot uniform_ C0 (mkWorld (snd d1) al)
               = (Ok (match nb with
                      | Some n =>
                          Some (mkTensor cpu [Rn; n]
                                  (fst (draws uniform_ (numel [Rn; n]) Rn n
                                          (snd d1))))
                      | None => None
                      end), mkWorld g2 al)).
  { subst C0 g2. destruct nb as [n|].
    - now rewrite glorot_matrix.
    - now rewrite glorot_absent. }
  destruct rw.
  - rewrite Nat.add_1_r.
    erewrite reset_root_weight;
      [ | reflexivity | reflexivity | apply surjective_pairing | exact HC
        | apply surjective_pairing ].
    cbn [in_channels out_channels num_relations num_bases aggr weight
           device data bias allocs rng].
    fold d1 d3. rewrite skipn_uninit, app_nil_r, Hz. reflexivity.
  - rewrite Nat.add_0_r.
    erewrite reset_no_root_weight;
      [ | reflexivity | reflexivity | apply surjective_pairing | exact HC ].
    cbn [in_channels out_channels num_relations num_bases aggr weight
           device data bias allocs].
    fold d1. rewrite skipn_uninit, !app_nil_r, Hz. reflexivity.
Qed.

(** *** [reset_parameters] in closed form *)

Lemma reset_closed_form self w :
  layer_ok self ->
  let B := match num_bases self with
           | Some n => n
           | None => num_relations self
           end in
  let I := in_channels self in
  let O := out_channels self in
  let d1 := draws uniform_ (numel [B; I; O]) I O (rng w) in
  let g2 := match num_bases self with
            | Some n =>
                snd (draws uniform_ (numel [num_relations self; n])
                       (num_relations self) n (snd d1))
            | None => snd d1
            end in
  let d3 := draws uniform_ (numel [I; O]) I O g2 in
  reset (self, w)
  = (Ok tt,
     (mkLayer I O (num_relations self) (num_bases self) (aggr self)
        (root_weight self)
        (mkTensor (device (weight self))
           [B + (if root_weight self then 1 else 0); I; O]
           (fst d1 ++ if root_weight self then fst d3 else []))
        (match num_bases self, comp self with
         | Some n, Some c =>
             Some (mkTensor (device c) [num_relations self; n]
                     (fst (draws uniform_ (numel [num_relations self; n])
                             (num_relations self) n (snd d1))))
         | _, _ => None
         end)
        (match bias self with
         | Some t => Some (mkTensor (device t) [O] (repeat rzero O))
         | None => None
         end),
      mkWorld (if root_weight self then snd d3 else g2) (allocs w))).
Proof.
  intros (Hsh & Hw & Hc & Hb) B I O d1 g2 d3.
  fold B I O in Hsh.
  assert (Hz : zeros rzero (bias self)
               = match bias self with
                 | Some t => Some (mkTensor (device t) [O] (repeat rzero O))
                 | None => None
                 end).
  { destruct (bias self) as [t|]; [|reflexivity]. destruct Hb as [Hb _].
    unfold zeros. fold O in Hb. rewrite Hb.
    cbn [numel fold_right]. now rewrite Nat.mul_1_r. }
  assert (HC : glorot uniform_ (comp self) (mkWorld (snd d1) (allocs w))
               = (Ok (match num_bases self, comp self with
                      | Some n, Some c =>
                          Some (mkTensor (device c) [num_relations self; n]
                                  (fst (draws uniform_
                                          (numel [num_relations self; n])
                                          (num_relations self) n (snd d1))))
                      | _, _ => None
                      end), mkWorld g2 (allocs w))).
  { subst g2. destruct (num_bases self) as [n|], (comp self) as [c|];
      try contradiction.
    - destruct Hc as [Hc _]. now rewrite (glorot_rank2 c _ Hc).
    - now rewrite glorot_absent. }
  unfold tensor_ok in Hw. rewrite Hsh in Hw.
  destruct (root_weight self) eqn:Hrw.
  - rewrite Nat.add_1_r in Hsh, Hw |- *.
    erewrite reset_root_weight;
      [ | exact Hsh | exact Hrw | apply surjective_pairing | exact HC
        | apply surjective_pairing ].
    fold d1 d3 I O. rewrite <- Hw, skipn_all, app_nil_r, Hz. reflexivity.
  - rewrite Nat.add_0_r in Hsh, Hw |- *.
    erewrite reset_no_root_weight;
      [ | exact Hsh | exact Hrw | apply surjective_pairing | exact HC ].
    fold d1 I O. rewrite <- Hw, skipn_all, !app_nil_r, Hz. reflexivity.
Qed.

Lemma draws_weight_length (B I O : nat) (rw : bool) g g' :
  length (fst (draws uniform_ (numel [B; I; O]) I O g)
            ++ if rw then fst (draws uniform_ (numel [I; O]) I O g') else [])
  = numel [B + (if rw then 1 else 0); I; O].
Proof.
  rewrite length_app, draws_length. destruct rw.
  - rewrite draws_length, Nat.add_1_r.
    change (numel [S B; I; O]) with (S B * numel [I; O]).
    change (numel [B; I; O]) with (B * numel [I; O]). lia.
  - cbn [length]. now rewrite !Nat.add_0_r.
Qed.

(** *** A zero bias *)

Lemma zero_bias_neutral G x csc edge_type mnn self w :
  (forall r, radd r rzero = r) ->
  bias self
  = Some (mkTensor (device (weight self)) [out_channels self]
            (repeat rzero (out_channels self))) ->
  fst (fwd G x csc edge_type mnn (self, w))
  = fst (fwd G x csc edge_type mnn (set_bias self None, w)).
Proof.
  intros H0 Hb. rewrite !forward_result. unfold set_bias, default_x.
  cbn [in_channels out_channels num_relations num_bases aggr root_weight
         weight comp bias].
  rewrite Hb.
  destruct (size _ 0); cbn [rbind]; [|reflexivity].
  destruct (get_typed_cugraph _ _ _ _ _); cbn [rbind]; [|reflexivity].
  destruct (global _ _); cbn [rbind]; [|reflexivity].
  destruct (a1 _ _ _ _ _) as [agg|]; cbn [rbind]; [|reflexivity].
  destruct (view_m1 _ _) as [W|] eqn:HW; cbn [rbind]; [|reflexivity].
  destruct (matmul _ _ _ _ _) as [r|] eqn:Hm; cbn [rbind]; [|reflexivity].
  apply view_m1_ok in HW. destruct HW as [_ ->].
  apply matmul_ok in Hm.
  destruct Hm as (pre & m & p & _ & HshW & Hd & Hr & Hdr & Hok).
  cbn [shape device] in HshW, Hd. inversion HshW; subst p.
  apply add_zero_vector with (pre := pre); auto. congruence.
Qed.

(** *** Invariants of construction and re-initialisation *)

(** X2.  A constructed layer stores the configuration it was given, its
    parameters agree with that configuration in shape and in storage
    length, they live on the cpu, and the constructor requested exactly
    their storages from the allocator, in the order weight, comp, bias. *)
Theorem init_layer_ok (I O Rn : nat) (nb : option nat) a (rw b : bool) w :
  valid_aggr a ->
  exists self w',
    init I O Rn nb a rw b w = (Ok self, w')
    /\ (in_channels self = I /\ out_channels self = O
        /\ num_relations self = Rn /\ num_bases self = nb
        /\ aggr self = a /\ root_weight self = rw)
    /\ layer_ok self
    /\ device (weight self) = cpu
    /\ option_map (@device R) (comp self) = option_map (fun _ => cpu) nb
    /\ option_map (@device R) (bias self) = (if b then Some cpu else None)
    /\ allocs w'
       = allocs w ++ [shape (weight self)]
           ++ match comp self with Some c => [shape c] | None => [] end
           ++ match bias self with Some t => [shape t] | None => [] end.
Proof.
  intros Ha. eexists _, _.
  split; [exact (@init_closed_form I O Rn nb rw w a b Ha)|].
  cbn [in_channels out_channels num_relations num_bases aggr root_weight
         weight comp bias shape device].
  split; [repeat split|]. split; [|split; [reflexivity|split; [|split]]].
  - unfold layer_ok, tensor_ok.
    cbn [in_channels out_channels num_relations num_bases aggr root_weight
           weight comp bias shape device data].
    split; [reflexivity|]. split; [apply draws_weight_length|]. split.
    + destruct nb as [n|]; [|exact Logic.I].
      split; [reflexivity|]. cbn [shape data]. apply draws_length.
    + destruct b; [|exact Logic.I]. split; [reflexivity|].
      cbn [shape data numel fold_right]. rewrite repeat_length. lia.
  - now destruct nb.
  - now destruct b.
  - destruct nb, b; reflexivity.
Qed.

(** X3.  On a layer whose parameters agree with its configuration,
    [reset_parameters] succeeds, keeps the configuration, the shape and the
    device of every parameter, keeps the agreement, and requests nothing
    from the allocator. *)
Theorem reset_keeps_layer_ok self w :
  layer_ok self ->
  exists self' w',
    reset (self, w) = (Ok tt, (self', w'))
    /\ layer_ok self'
    /\ (in_channels self' = in_channels self
        /\ out_channels self' = out_channels self
        /\ num_relations self' = num_relations self
        /\ num_bases self' = num_bases self
        /\ aggr self' = aggr self /\ root_weight self' = root_weight self)
    /\ shape (weight self') = shape (weight self)
    /\ device (weight self') = device (weight self)
    /\ option_map (@shape R) (comp self') = option_map (@shape R) (comp self)
    /\ option_map (@device R) (comp self')
       = option_map (@device R) (comp self)
    /\ option_map (@shape R) (bias self') = option_map (@shape R) (bias self)
    /\ option_map (@device R) (bias self')
       = option_map (@device R) (bias self)
    /\ allocs w' = allocs w.
Proof.
  intros Hok. eexists _, _. split; [exact (reset_closed_form w Hok)|].
  destruct Hok as (Hsh & Hw & Hc & Hb).
  cbn [in_channels out_channels num_relations num_bases aggr root_weight
         weight comp bias shape device allocs].
  split; [|split; [repeat split|]].
  - unfold layer_ok, tensor_ok.
    cbn [in_channels out_channels num_relations num_bases aggr root_weight
           weight comp bias shape device data].
    split; [reflexivity|]. split; [apply draws_weight_length|]. split.
    + destruct (num_bases self) as [n|], (comp self) as [c|];
        try contradiction; [|exact Logic.I].
      split; [reflexivity|]. cbn [shape data]. apply draws_length.
    + destruct (bias self) as [t|]; [|exact Logic.I].
      split; [reflexivity|].
      cbn [shape data numel fold_right]. rewrite repeat_length. lia.
  - split; [now rewrite Hsh|]. split; [reflexivity|].
    split; [|split; [|split; [|split; [|reflexivity]]]].
    + destruct (num_bases self) as [n|], (comp self) as [c|];
        try contradiction; [|reflexivity].
      destruct Hc as [Hc _]. cbn. now rewrite Hc.
    + destruct (num_bases self) as [n|], (comp self) as [c|];
        try contradiction; reflexivity.
    + destruct (bias self) as [t|]; [|reflexivity].
      destruct Hb as [Hb _]. cbn. now rewrite Hb.
    + destruct (bias self) as [t|]; reflexivity.
Qed.

(** X4.  [reset_parameters] forgets the values it overwrites: two
    well-formed layers with the same configuration and the same parameter
    devices are reset, from the same generator state, to the same layer. *)
Theorem reset_forgets_values (l1 l2 : Layer) w :
  layer_ok l1 -> layer_ok l2 ->
  in_channels l1 = in_channels l2 -> out_channels l1 = out_channels l2 ->
  num_relations l1 = num_relations l2 -> num_bases l1 = num_bases l2 ->
  aggr l1 = aggr l2 -> root_weight l1 = root_weight l2 ->
  device (weight l1) = device (weight l2) ->
  option_map (@device R) (comp l1) = option_map (@device R) (comp l2) ->
  option_map (@device R) (bias l1) = option_map (@device R) (bias l2) ->
  reset (l1, w) = reset (l2, w).
Proof.
  intros Hok1 Hok2 Hi Ho Hr Hn Ha Hrw Hdw Hdc Hdb.
  rewrite (reset_closed_form w Hok1), (reset_closed_form w Hok2).
  destruct Hok1 as (_ & _ & Hc1 & _), Hok2 as (_ & _ & Hc2 & _).
  rewrite Hi, Ho, Hr, Hn, Ha, Hrw, Hdw.
  assert (Ec : match num_bases l2, comp l1 with
               | Some n, Some c =>
                   Some (mkTensor (device c) [num_relations l2; n]
                           (fst (draws uniform_ (numel [num_relations l2; n])
                                   (num_relations l2) n
                                   (snd (draws uniform_
                                           (numel [match num_bases l2 with
                                                   | Some n0 => n0
                                                   | None => num_relations l2
                                                   end; in_channels l2;
                                                   out_channels l2])
                                           (in_channels l2) (out_channels l2)
                                           (rng w))))))
               | _, _ => None
               end
               = match num_bases l2, comp l2 with
                 | Some n, Some c =>
                     Some (mkTensor (device c) [num_relations l2; n]
                             (fst (draws uniform_
                                     (numel [num_relations l2; n])
                                     (num_relations l2) n
                                     (snd (draws uniform_
                                             (numel [match num_bases l2 with
                                                     | Some n0 => n0
                                                     | None => num_relations l2
                                                     end; in_channels l2;
                                                     out_channels l2])
                                             (in_channels l2)
                                             (out_channels l2) (rng w))))))
                 | _, _ => None
                 end).
  { rewrite Hn in Hc1.
    destruct (num_bases l2), (comp l1), (comp l2); try contradiction;
      cbn in Hdc; try reflexivity. congruence. }
  rewrite Ec.
  assert (Eb : match bias l1 with
               | Some t => Some (mkTensor (device t) [out_channels l2]
                                   (repeat rzero (out_channels l2)))
               | None => None
               end
               = match bias l2 with
                 | Some t => Some (mkTensor (device t) [out_channels l2]
                                     (repeat rzero (out_channels l2)))
                 | None => None
                 end).
  { destruct (bias l1), (bias l2); cbn in Hdb; congruence. }
  now rewrite Eb.
Qed.

(** *** Further properties of [forward] *)

(** X5.  Failures before the projection pass through [forward] unchanged
    and in source order: a 0-dimensional [x] raises [IndexError] at
    [x.size(0)] before the graph is built or the kernel looked up; an
    exception of the graph builder is raised as it is, whether or not the
    kernel is bound; an exception of the kernel is raised as it is. *)
Theorem forward_error_order G x csc edge_type mnn self w :
  (forall t, x = Some t -> shape t = [] ->
   fst (fwd G x csc edge_type mnn (self, w)) = Raise IndexError)
  /\ (forall n e,
      size (default_x rzero rone self x edge_type) 0 = Ok n ->
      get_typed_cugraph n csc edge_type (num_relations self) mnn = Raise e ->
      fst (fwd G x csc edge_type mnn (self, w)) = Raise e)
  /\ (forall n graph k e,
      size (default_x rzero rone self x edge_type) 0 = Ok n ->
      get_typed_cugraph n csc edge_type (num_relations self) mnn = Ok graph ->
      RGCNConvAgg G = Some k ->
      k (default_x rzero rone self x edge_type) (comp self) graph
        (root_weight self) (String.eqb (aggr self) "mean") = Raise e ->
      fst (fwd G x csc edge_type mnn (self, w)) = Raise e).
Proof.
  split; [|split].
  - intros t -> Ht. rewrite forward_result. unfold default_x, size.
    now rewrite Ht.
  - intros n e Hn Hg. rewrite forward_result, Hn. cbn [rbind].
    now rewrite Hg.
  - intros n graph k e Hn Hg Hk He. rewrite forward_result, Hn. cbn [rbind].
    rewrite Hg. cbn [rbind]. rewrite Hk. cbn [global rbind]. now rewrite He.
Qed.

(** X6.  A layer with [out_channels = 0] never returns from [forward]:
    [view(-1, 0)] of the weight is refused. *)
Theorem forward_zero_out_channels G x csc edge_type mnn self w :
  out_channels self = 0 ->
  is_ok (fst (fwd G x csc edge_type mnn (self, w))) = false.
Proof.
  intros HO. rewrite forward_result, HO.
  destruct (size _ 0); cbn [rbind is_ok]; [|reflexivity].
  destruct (get_typed_cugraph _ _ _ _ _); cbn [rbind is_ok]; [|reflexivity].
  destruct (global _ _); cbn [rbind is_ok]; [|reflexivity].
  destruct (a1 _ _ _ _ _); reflexivity.
Qed.

(** X7.  When [forward] returns, the kernel was bound and returned a
    tensor on the device of the weight whose last dimension is the number of
    rows of the viewed weight, [numel(weight) / out_channels]; the output
    keeps the leading dimensions of the kernel output, its last dimension
    is [out_channels], and its storage has the length its shape announces
    (the bias, if any, being a vector of length [out_channels]). *)
Theorem forward_output_shape G x csc edge_type mnn self w out :
  fst (fwd G x csc edge_type mnn (self, w)) = Ok out ->
  (forall b, bias self = Some b -> shape b = [out_channels self]) ->
  exists k n graph agg pre,
    RGCNConvAgg G = Some k
    /\ size (default_x rzero rone self x edge_type) 0 = Ok n
    /\ get_typed_cugraph n csc edge_type (num_relations self) mnn = Ok graph
    /\ k (default_x rzero rone self x edge_type) (comp self) graph
         (root_weight self) (String.eqb (aggr self) "mean") = Ok agg
    /\ out_channels self <> 0
    /\ shape agg = pre ++ [numel (shape (weight self)) / out_channels self]
    /\ device agg = device (weight self)
    /\ shape out = pre ++ [out_channels self]
    /\ tensor_ok out.
Proof.
  intros H Hb. rewrite forward_result in H.
  destruct (size _ 0) as [n|] eqn:Hn; cbn [rbind] in H; [|discriminate].
  destruct (get_typed_cugraph _ _ _ _ _) as [graph|] eqn:Hg;
    cbn [rbind] in H; [|discriminate].
  destruct (RGCNConvAgg G) as [k|] eqn:Hk; cbn [global rbind] in H;
    [|discriminate].
  destruct (k _ _ _ _ _) as [agg|] eqn:Ha; cbn [rbind] in H; [|discriminate].
  destruct (view_m1 _ _) as [W|] eqn:HW; cbn [rbind] in H; [|discriminate].
  destruct (matmul _ _ _ _ _) as [r|] eqn:Hm; cbn [rbind] in H;
    [|discriminate].
  apply view_m1_ok in HW. destruct HW as [HO ->].
  apply matmul_ok in Hm.
  destruct Hm as (pre & m & p & Hagg & HshW & Hd & Hr & Hdr & Hok).
  cbn [shape device] in HshW, Hd. inversion HshW; subst m p.
  exists k, n, graph, agg, pre.
  repeat (split; [first [reflexivity|assumption]|]).
  destruct (bias self) as [b|] eqn:Ebias.
  - apply add_ok in H. destruct H as (Hbs & _ & Hok').
    rewrite Hr, (Hb b eq_refl), broadcast_last in Hbs.
    inversion Hbs as [E]. split; [reflexivity|exact Hok'].
  - inversion H; subst out. split; assumption.
Qed.

(** X8.  [forward] reads the layer through [out_channels],
    [num_relations], [root_weight], the test [aggr == "mean"] and the three
    parameters, and through [in_channels] only when [x] is absent: it never
    reads [num_bases], and with [x] given it never reads [in_channels]. *)
Theorem forward_reads G x csc edge_type mnn (l1 l2 : Layer) w :
  out_channels l1 = out_channels l2 ->
  num_relations l1 = num_relations l2 ->
  root_weight l1 = root_weight l2 ->
  String.eqb (aggr l1) "mean" = String.eqb (aggr l2) "mean" ->
  weight l1 = weight l2 -> comp l1 = comp l2 -> bias l1 = bias l2 ->
  (x = None -> in_channels l1 = in_channels l2) ->
  fst (fwd G x csc edge_type mnn (l1, w))
  = fst (fwd G x csc edge_type mnn (l2, w)).
Proof.
  intros Ho Hr Hrw Ha Hw Hc Hb Hi. rewrite !forward_result.
  assert (Hx : default_x rzero rone l1 x edge_type
               = default_x rzero rone l2 x edge_type).
  { unfold default_x. destruct x; [reflexivity|]. now rewrite Hi. }
  now rewrite Hx, Ho, Hr, Hrw, Ha, Hw, Hc, Hb.
Qed.

(** X9.  When zero is neutral on the right for the scalar sum, a bias that
    is the zero vector of length [out_channels] on the device of the weight
    changes nothing: [forward] returns what the layer without bias
    returns, errors included. *)
Theorem forward_zero_bias G x csc edge_type mnn self w :
  (forall r, radd r rzero = r) ->
  bias self
  = Some (mkTensor (device (weight self)) [out_channels self]
            (repeat rzero (out_channels self))) ->
  fst (fwd G x csc edge_type mnn (self, w))
  = fst (fwd G x csc edge_type mnn (set_bias self None, w)).
Proof. apply zero_bias_neutral. Qed.

(** X10.  The bias flag of the constructor does not touch the other
    parameters or the generator: from the same world, construction with and
    without bias gives the same weight and [comp] and leaves the generator
    in the same state; and, zero being neutral, the two fresh layers return
    the same from [forward] on every input. *)
Theorem init_bias_flag (I O Rn : nat) (nb : option nat) a (rw : bool) w
    G x csc edge_type mnn :
  valid_aggr a ->
  exists l w1 w2,
    init I O Rn nb a rw true w
    = (Ok (set_bias l (Some (mkTensor cpu [O] (repeat rzero O)))), w1)
    /\ init I O Rn nb a rw false w = (Ok (set_bias l None), w2)
    /\ rng w1 = rng w2
    /\ allocs w1 = allocs w2 ++ [[O]]
    /\ ((forall r, radd r rzero = r) ->
        fst (fwd G x csc edge_type mnn
               (set_bias l (Some (mkTensor cpu [O] (repeat rzero O))), w1))
        = fst (fwd G x csc edge_type mnn (set_bias l None, w2))).
Proof.
  intros Ha.
  pose proof (@init_closed_form I O Rn nb rw w a true Ha) as Ht.
  pose proof (@init_closed_form I O Rn nb rw w a false Ha) as Hf.
  cbv zeta in Ht, Hf.
  match type of Hf with _ = (Ok ?l, _) => exists l end.
  eexists _, _. split; [exact Ht|]. split; [exact Hf|].
  cbn [rng allocs]. split; [reflexivity|]. split.
  - rewrite !app_nil_r, <- !app_assoc. reflexivity.
  - intros H0. rewrite (zero_bias_neutral G x csc edge_type mnn _ _ H0);
      [|reflexivity].
    rewrite !forward_result. reflexivity.
Qed.

(** X11.  A freshly constructed layer with [out_channels <> 0] is usable as
    it is: when the kernel returns a cpu tensor of shape
    [(rows, (B + d) * in_channels)], with [B] the number of bases or
    relations and [d] the root slice, [forward] returns a well-formed cpu
    tensor of shape [(rows, out_channels)]. *)
Theorem fresh_layer_forward (I O Rn : nat) (nb : option nat) a (rw b : bool) w
    self w' G k x csc edge_type mnn n graph agg rows :
  valid_aggr a -> O <> 0 ->
  init I O Rn nb a rw b w = (Ok self, w') ->
  RGCNConvAgg G = Some k ->
  size (default_x rzero rone self x edge_type) 0 = Ok n ->
  get_typed_cugraph n csc edge_type Rn mnn = Ok graph ->
  k (default_x rzero rone self x edge_type) (comp self) graph rw
    (String.eqb a "mean") = Ok agg ->
  shape agg
  = [rows; (match nb with Some Bn => Bn | None => Rn end
            + (if rw then 1 else 0)) * I] ->
  device agg = cpu ->
  exists out,
    fst (fwd G x csc edge_type mnn (self, w')) = Ok out
    /\ shape out = [rows; O] /\ device out = cpu /\ tensor_ok out.
Proof.
  intros Ha HO Hinit HG Hn Hg Hk Hsh Hdev.
  rewrite (@init_closed_form I O Rn nb rw w a b Ha) in Hinit.
  cbv zeta in Hinit. injection Hinit as Hself Hw'. subst self w'.
  rewrite forward_result, Hn. cbn [rbind].
  cbn [num_relations comp root_weight aggr weight out_channels bias]
    in Hk |- *.
  rewrite Hg. cbn [rbind]. rewrite HG. cbn [global rbind].
  rewrite Hk. cbn [rbind].
  erewrite view_m1_weight; [|reflexivity|exact HO].
  cbn [rbind device].
  erewrite matmul_2d; [|exact Hsh|reflexivity|exact Hdev]. cbn [rbind].
  destruct b.
  - erewrite add_rows; [|reflexivity|reflexivity|exact Hdev].
    eexists. split; [reflexivity|]. cbn [shape device]. repeat split.
    + exact Hdev.
    + unfold tensor_ok. cbn [shape data numel fold_right].
      rewrite length_map, length_seq. lia.
  - eexists. split; [reflexivity|]. cbn [shape device]. repeat split.
    + exact Hdev.
    + unfold tensor_ok. cbn [shape data numel fold_right].
      rewrite length_flat_rows. lia.
Qed.

End Properties.

(** ** String representation *)







(** ** The tensor operations on small inputs *)

Example add_column_to_vector :
  add 0%Z Z.add (mkTensor cpu [2; 1] [1; 2]%Z) (mkTensor cpu [3] [10; 20; 30]%Z)
  = Ok (mkTensor cpu [2; 3] [11; 21; 31; 12; 22; 32]%Z).
Proof. reflexivity. Qed.

Example add_shape_mismatch :
  add 0%Z Z.add (mkTensor cpu [2; 3] [1; 2; 3; 4; 5; 6]%Z)
    (mkTensor cpu [2] [10; 20]%Z)
  = Raise RuntimeError.
Proof. reflexivity. Qed.

Example add_device_mismatch :
  add 0%Z Z.add (mkTensor (cuda 0) [2; 3] [1; 2; 3; 4; 5; 6]%Z)
    (mkTensor cpu [3] [10; 20; 30]%Z)
  = Raise RuntimeError.
Proof. reflexivity. Qed.

Example matmul_batched :
  matmul 0%Z Z.add Z.mul (mkTensor cpu [2; 2; 2] [1; 2; 3; 4; 5; 6; 7; 8]%Z)
    (mkTensor cpu [2; 1] [1; 10]%Z)
  = Ok (mkTensor cpu [2; 2; 1] [21; 43; 65; 87]%Z).
Proof. reflexivity. Qed.

Example view_of_weight :
  view_m1 (weight Run.conv) 2
  = Ok (mkTensor cpu [12; 2] (data (weight Run.conv))).
Proof. reflexivity. Qed.

Example slice_all_but_last :
  slice_to [3; 4; 2] (Some (-1)%Z) = Ok (mkView 0 [2; 4; 2])
  /\ select [3; 4; 2] (-1)%Z = Ok (mkView 16 [4; 2])
  /\ select [0; 4; 2] (-1)%Z = Raise IndexError.
Proof. repeat split. Qed.

Example forward_three_nodes :
  Run.forward Run.G
    (Some (mkTensor cpu [3; 4] [1; 2; 3; 4; 5; 6; 7; 8; 9; 10; 11; 12]%Z))
    (Run.row3, Run.colptr3) Run.edge_type3 None (Run.conv, Run.w0)
  = (Ok (mkTensor cpu [3; 2] [88; 63; 167; 149; 188; 210]%Z),
     (Run.conv, Run.w0)).
Proof. reflexivity. Qed.

(** ** The claims on concrete inputs *)

(** C1, as stated, fails.  The graph below has three nodes (the largest
    source index is 2, and [colptr] has three columns) while the layer has
    four input channels: the matrix substituted for the absent [x] is the
    4 x 4 identity, not the 3 x 3 one, and calling [forward] with the 3 x 3
    identity does not give what the call without [x] gives. *)
Lemma default_features_counterexample :
  Run.spec_num_source_nodes (Run.row3, Run.colptr3) = 3
  /\ length (data Run.colptr3) - 1 = 3
  /\ in_channels Run.conv = 4
  /\ default_x 0%Z 1%Z Run.conv None Run.edge_type3 = eye 0%Z 1%Z 4 cpu
  /\ default_x 0%Z 1%Z Run.conv None Run.edge_type3
     <> eye 0%Z 1%Z
          (Run.spec_num_source_nodes (Run.row3, Run.colptr3)) cpu
  /\ fst (Run.forward Run.G None (Run.row3, Run.colptr3) Run.edge_type3 None
            (Run.conv, Run.w0))
     = Ok (mkTensor cpu [3; 2] [11; -7; 16; -5; 15; -4]%Z)
  /\ fst (Run.forward Run.G
            (Some (eye 0%Z 1%Z
                     (Run.spec_num_source_nodes (Run.row3, Run.colptr3)) cpu))
            (Run.row3, Run.colptr3) Run.edge_type3 None (Run.conv, Run.w0))
     = Raise RuntimeError
  /\ fst (Run.forward Run.G None (Run.row3, Run.colptr3) Run.edge_type3 None
            (Run.conv, Run.w0))
     <> fst (Run.forward Run.G
               (Some (eye 0%Z 1%Z
                        (Run.spec_num_source_nodes (Run.row3, Run.colptr3))
                        cpu))
               (Run.row3, Run.colptr3) Run.edge_type3 None (Run.conv, Run.w0)).
Proof.
  repeat split; try reflexivity; vm_compute; discriminate.
Qed.

Lemma forward_default_features_witness :
  1 < in_channels Run.conv
  /\ 2 < in_channels Run.conv
  /\ nth (1 * in_channels Run.conv + 2)
       (data (default_x 0%Z 1%Z Run.conv None Run.edge_type3)) 0%Z
     = (if 1 =? 2 then 1 else 0)%Z
  /\ Run.build (in_channels Run.conv) (Run.row3, Run.colptr3)
       (mkTensor cpu [3] [0; 1; 0]%Z) (num_relations Run.conv) None
     = Raise RuntimeError
  /\ fst (Run.forward Run.G None (Run.row3, Run.colptr3)
            (mkTensor cpu [3] [0; 1; 0]%Z) None (Run.conv, Run.w0))
     = Raise RuntimeError.
Proof.
  assert (H1 : 1 < in_channels Run.conv) by (simpl; lia).
  assert (H2 : 2 < in_channels Run.conv) by (simpl; lia).
  split; [exact H1|split; [exact H2|split; [|split; [reflexivity|]]]].
  - exact (proj1 (proj2 (proj2 (proj2
             (@forward_default_features Z 0%Z 1%Z Z.add Z.mul nat Run.graph
                Run.build Run.G (Run.row3, Run.colptr3) Run.edge_type3 None
                Run.conv Run.w0)))) 1 2 H1 H2).
  - exact (proj2 (proj2 (proj2 (proj2 (proj2 (proj2 (proj2
             (@forward_default_features Z 0%Z 1%Z Z.add Z.mul nat Run.graph
                Run.build Run.G (Run.row3, Run.colptr3)
                (mkTensor cpu [3] [0; 1; 0]%Z) None Run.conv Run.w0)))))))
             RuntimeError eq_refl).
Defined.

Lemma init_aggr_check_witness :
  In "mean"%string ["sum"; "add"; "mean"]%string
  /\ (exists self w',
        Run.init 4 2 2 None "mean" true true Run.w0 = (Ok self, w')
        /\ init_object 0%Z Run.uniform_ Run.uninit 4 2 2 None "mean" true true
             (no_attrs Z, Run.w0)
           = (Ok tt, (attrs_of_layer self, w')))
  /\ ~ In "max"%string ["sum"; "add"; "mean"]%string
  /\ Run.init 4 2 2 None "max" true true Run.w0
     = (Raise (ValueError (aggr_error "max")), Run.w0)
  /\ init_object 0%Z Run.uniform_ Run.uninit 4 2 2 None "max" true true
       (no_attrs Z, Run.w0)
     = (Raise (ValueError (aggr_error "max")), (no_attrs Z, Run.w0)).
Proof.
  assert (H1 : In "mean"%string ["sum"; "add"; "mean"]%string)
    by (simpl; auto).
  assert (H2 : ~ In "max"%string ["sum"; "add"; "mean"]%string)
    by (simpl; intros [H|[H|[H|[]]]]; discriminate H).
  split; [exact H1|split; [|split; [exact H2|split]]].
  - exact (proj1 (init_aggr_check 0%Z Run.uniform_ Run.uninit 4 2 2 None
                    "mean" true true Run.w0) H1).
  - exact (proj1 (proj2 (init_aggr_check 0%Z Run.uniform_ Run.uninit 4 2 2
                           None "max" true true Run.w0) H2)).
  - exact (proj2 (proj2 (init_aggr_check 0%Z Run.uniform_ Run.uninit 4 2 2
                           None "max" true true Run.w0) H2)
             (no_attrs Z)).
Defined.

Lemma init_shapes_witness :
  In "sum"%string ["sum"; "add"; "mean"]%string
  /\ exists self w',
       Run.init 3 2 5 (Some 2) "sum" true false Run.w0 = (Ok self, w')
       /\ shape (weight self) = [2 + 1; 3; 2]
       /\ option_map (@shape Z) (comp self) = Some [5; 2]
       /\ option_map (@shape Z) (bias self) = None.
Proof.
  assert (H : In "sum"%string ["sum"; "add"; "mean"]%string)
    by (simpl; auto).
  split; [exact H|].
  exact (@init_shapes Z 0%Z nat Run.uniform_ Run.uninit 3 2 5 (Some 2)
           "sum"%string true false Run.w0 H).
Defined.


Lemma forward_bias_law_witness :
  fst (Run.forward Run.G None (Run.row3, Run.colptr3) Run.edge_type3 None
         (set_bias Run.conv None, Run.w0))
  = Ok (mkTensor cpu [3; 2] [1; 3; 6; 5; 5; 6]%Z)
  /\ shape (mkTensor cpu [3; 2] [1; 3; 6; 5; 5; 6]%Z) = [3; 2]
  /\ shape (mkTensor cpu [2] [10; -10]%Z) = [2]
  /\ device (mkTensor cpu [3; 2] [1; 3; 6; 5; 5; 6]%Z)
     = device (mkTensor cpu [2] [10; -10]%Z)
  /\ fst (Run.forward Run.G None (Run.row3, Run.colptr3) Run.edge_type3 None
            (set_bias Run.conv (Some (mkTensor cpu [2] [10; -10]%Z)), Run.w0))
     = Ok (mkTensor cpu [3; 2]
             (map (fun i =>
                     (nth i [1; 3; 6; 5; 5; 6] 0 + nth (i mod 2) [10; -10] 0)%Z)
                  (seq 0 (3 * 2)))).
Proof.
  split; [reflexivity|split; [reflexivity|split; [reflexivity|
    split; [reflexivity|]]]].
  exact (proj2 (proj2 (@forward_bias_law Z 0%Z 1%Z Z.add Z.mul nat Run.graph
                         Run.build Run.G None (Run.row3, Run.colptr3)
                         Run.edge_type3 None Run.conv Run.w0
                         (mkTensor cpu [2] [10; -10]%Z)))
           (mkTensor cpu [3; 2] [1; 3; 6; 5; 5; 6]%Z) 3 2
           eq_refl eq_refl eq_refl eq_refl).
Defined.

Lemma missing_kernel_witness :
  In "mean"%string ["sum"; "add"; "mean"]%string
  /\ (exists self w',
        Run.init 4 2 2 None "mean" true true Run.w0 = (Ok self, w'))
  /\ size (default_x 0%Z 1%Z Run.conv None Run.edge_type3) 0 = Ok 4
  /\ Run.build 4 (Run.row3, Run.colptr3) Run.edge_type3
       (num_relations Run.conv) None
     = Ok (Run.mkGraph 4 [1; 2]%Z [0; 1; 2; 2]%Z [0; 1]%Z 2 None)
  /\ fst (Run.forward (mkGlobals None) None (Run.row3, Run.colptr3)
            Run.edge_type3 None (Run.conv, Run.w0))
     = Raise (NameError "RGCNConvAgg").
Proof.
  assert (H : In "mean"%string ["sum"; "add"; "mean"]%string)
    by (simpl; auto).
  destruct (@missing_kernel Z 0%Z 1%Z Z.add Z.mul nat Run.uniform_ Run.uninit
              Run.graph Run.build) as (_ & Hinit & _ & Hfwd).
  split; [exact H|split; [|split; [reflexivity|split; [reflexivity|]]]].
  - exact (Hinit 4 2 2 None "mean"%string true true Run.w0 H).
  - exact (Hfwd None (Run.row3, Run.colptr3) Run.edge_type3 None Run.conv
             Run.w0 4 (Run.mkGraph 4 [1; 2]%Z [0; 1; 2; 2]%Z [0; 1]%Z 2 None)
             eq_refl eq_refl).
Defined.

Lemma reset_parameters_fills_witness :
  shape (weight Run.conv) = [2 + (if root_weight Run.conv then 1 else 0); 4; 2]
  /\ length (data (weight Run.conv)) = numel (shape (weight Run.conv))
  /\ draws Run.uniform_ (numel [2; 4; 2]) 4 2 (rng Run.w0)
     = ([-4; -3; -2; -1; 0; 1; 2; -4; -3; -2; -1; 0; 1; 2; -4; -3]%Z, 16)
  /\ glorot Run.uniform_ (comp Run.conv) (mkWorld 16 (allocs Run.w0))
     = (Ok None, mkWorld 16 [])
  /\ root_weight Run.conv = true
  /\ draws Run.uniform_ (numel [4; 2]) 4 2 16
     = ([-2; -1; 0; 1; 2; -4; -3; -2]%Z, 24)
  /\ Run.reset (Run.conv, Run.w0)
     = (Ok tt,
        (set_bias
           (set_comp
              (set_weight Run.conv
                 (mkTensor cpu [2 + 1; 4; 2]
                    ([-4; -3; -2; -1; 0; 1; 2; -4; -3; -2; -1; 0; 1; 2; -4; -3]
                       ++ [-2; -1; 0; 1; 2; -4; -3; -2])%Z))
              None)
           (zeros 0%Z (bias Run.conv)),
         mkWorld 24 [])).
Proof.
  split; [reflexivity|split; [reflexivity|split; [reflexivity|
    split; [reflexivity|split; [reflexivity|split; [reflexivity|]]]]]].
  exact (proj1 (@reset_parameters_fills Z 0%Z nat Run.uniform_ Run.uninit
                  Run.conv Run.w0 2 4 2 _ 16 None (mkWorld 16 [])
                  eq_refl eq_refl eq_refl eq_refl)
           eq_refl _ 24 eq_refl).
Defined.

Lemma reset_parameters_total_witness :
  In "add"%string ["sum"; "add"; "mean"]%string
  /\ exists self w',
       Run.init 3 2 5 None "add" false false Run.w0 = (Ok self, w')
       /\ (comp self = None <-> @None nat = None)
       /\ (bias self = None <-> false = false)
       /\ exists self2 w3,
            Run.reset (self, mkWorld 7 []) = (Ok tt, (self2, w3))
            /\ comp self2 = None /\ bias self2 = None.
Proof.
  assert (H : In "add"%string ["sum"; "add"; "mean"]%string)
    by (simpl; auto).
  split; [exact H|].
  destruct (@reset_parameters_total Z 0%Z nat Run.uniform_ Run.uninit 3 2 5
              None "add"%string false false Run.w0 (mkWorld 7 []) H)
    as (self & w' & Hi & Hc & Hb & (self2 & w3 & Hr & _ & _ & _ & Hc2 & Hb2) & _).
  exists self, w'. split; [exact Hi|split; [exact Hc|split; [exact Hb|]]].
  exists self2, w3. split; [exact Hr|split; [exact (Hc2 eq_refl)|exact (Hb2 eq_refl)]].
Defined.

(** ** Further properties on concrete inputs *)

(** X12.  The constructor leaves no uninitialised entry behind: whatever
    the freshly allocated storages contain, construction gives the same
    result. *)
Theorem init_ignores_uninit (R : Type) (rzero : R) (RNG : Type)
    (uniform_ : nat -> nat -> RNG -> R * RNG) (un1 un2 : nat -> R)
    (I O Rn : nat) (nb : option nat) (a : string) (rw b : bool)
    (w : World RNG) :
  __init__ rzero uniform_ un1 I O Rn nb a rw b w
  = __init__ rzero uniform_ un2 I O Rn nb a rw b w.
Proof.
  destruct (in_dec string_dec a ["sum"; "add"; "mean"]%string) as [Ha|Ha].
  - rewrite (@init_closed_form R rzero RNG uniform_ un1 I O Rn nb rw w a b Ha).
    rewrite (@init_closed_form R rzero RNG uniform_ un2 I O Rn nb rw w a b Ha).
    reflexivity.
  - unfold __init__, bind, super_init. cbn [ret].
    now rewrite (aggr_check_invalid Ha).
Qed.

Example repr_of_conv :
  __repr__ "CuGraphRGCNConv"%string Run.conv
  = "CuGraphRGCNConv(4, 2, num_relations=2)"%string.
Proof. reflexivity. Qed.

Lemma layer_ok_conv : layer_ok Run.conv.
Proof. repeat split. Defined.


Lemma init_layer_ok_witness :
  In "mean"%string ["sum"; "add"; "mean"]%string
  /\ exists self w',
       Run.init 3 2 5 (Some 2) "mean"%string true true Run.w0 = (Ok self, w')
       /\ layer_ok self
       /\ allocs w' = [[3; 3; 2]; [5; 2]; [2]].
Proof.
  assert (H : In "mean"%string ["sum"; "add"; "mean"]%string)
    by (simpl; auto).
  split; [exact H|].
  destruct (@init_layer_ok Z 0%Z nat Run.uniform_ Run.uninit 3 2 5 (Some 2)
              "mean"%string true true Run.w0 H)
    as (self & w' & Hi & _ & Hok & _ & _ & _ & Hal).
  exists self, w'. split; [exact Hi|split; [exact Hok|]].
  rewrite Hal. injection Hi as <- _. reflexivity.
Defined.

Lemma reset_keeps_layer_ok_witness :
  layer_ok Run.conv
  /\ exists self' w',
       Run.reset (Run.conv, Run.w0) = (Ok tt, (self', w'))
       /\ layer_ok self' /\ allocs w' = allocs Run.w0.
Proof.
  split; [exact layer_ok_conv|].
  destruct (@reset_keeps_layer_ok Z 0%Z nat Run.uniform_ Run.conv Run.w0
              layer_ok_conv)
    as (self' & w' & Hr & Hok & _ & _ & _ & _ & _ & _ & _ & Hal).
  exists self', w'. split; [exact Hr|split; [exact Hok|exact Hal]].
Defined.

Lemma reset_forgets_values_witness :
  layer_ok Run.conv
  /\ layer_ok (set_weight Run.conv (mkTensor cpu [3; 4; 2] (repeat 0%Z 24)))
  /\ weight Run.conv
     <> weight (set_weight Run.conv (mkTensor cpu [3; 4; 2] (repeat 0%Z 24)))
  /\ Run.reset (Run.conv, Run.w0)
     = Run.reset
         (set_weight Run.conv (mkTensor cpu [3; 4; 2] (repeat 0%Z 24)), Run.w0).
Proof.
  assert (H2 : layer_ok
                 (set_weight Run.conv
                    (mkTensor cpu [3; 4; 2] (repeat 0%Z 24))))
    by (repeat split).
  split; [exact layer_ok_conv|split; [exact H2|split; [discriminate|]]].
  exact (@reset_forgets_values Z 0%Z nat Run.uniform_ Run.conv
           (set_weight Run.conv (mkTensor cpu [3; 4; 2] (repeat 0%Z 24)))
           Run.w0 layer_ok_conv H2 eq_refl eq_refl eq_refl eq_refl eq_refl
           eq_refl eq_refl eq_refl eq_refl).
Defined.

Lemma forward_error_order_witness :
  shape (mkTensor cpu [] [5]%Z) = []
  /\ fst (Run.forward (mkGlobals None) (Some (mkTensor cpu [] [5]%Z))
            (Run.row3, Run.colptr3) Run.edge_type3 None (Run.conv, Run.w0))
     = Raise IndexError
  /\ Run.build 4 (Run.row3, Run.colptr3) (mkTensor cpu [3] [0; 1; 0]%Z)
       (num_relations Run.conv) None = Raise RuntimeError
  /\ fst (Run.forward (mkGlobals None) None (Run.row3, Run.colptr3)
            (mkTensor cpu [3] [0; 1; 0]%Z) None (Run.conv, Run.w0))
     = Raise RuntimeError.
Proof.
  destruct (@forward_error_order Z 0%Z 1%Z Z.add Z.mul nat Run.graph Run.build
              (mkGlobals None) (Some (mkTensor cpu [] [5]%Z))
              (Run.row3, Run.colptr3) Run.edge_type3 None Run.conv Run.w0)
    as (H1 & _ & _).
  destruct (@forward_error_order Z 0%Z 1%Z Z.add Z.mul nat Run.graph Run.build
              (mkGlobals None) None
              (Run.row3, Run.colptr3) (mkTensor cpu [3] [0; 1; 0]%Z) None
              Run.conv Run.w0)
    as (_ & H2 & _).
  split; [reflexivity|split; [|split; [reflexivity|]]].
  - exact (H1 _ eq_refl eq_refl).
  - exact (H2 4 RuntimeError eq_refl eq_refl).
Defined.

Lemma forward_zero_out_channels_witness :
  out_channels (mkLayer 4 0 2 None "sum"%string false (mkTensor cpu [2; 4; 0] [])
                  None (@None (Tensor Z))) = 0
  /\ is_ok (fst (Run.forward Run.G None (Run.row3, Run.colptr3)
                   Run.edge_type3 None
                   (mkLayer 4 0 2 None "sum"%string false
                      (mkTensor cpu [2; 4; 0] []) None None, Run.w0)))
     = false.
Proof.
  split; [reflexivity|].
  exact (@forward_zero_out_channels Z 0%Z 1%Z Z.add Z.mul nat Run.graph
           Run.build Run.G None (Run.row3, Run.colptr3) Run.edge_type3 None
           (mkLayer 4 0 2 None "sum"%string false (mkTensor cpu [2; 4; 0] []) None
              None)
           Run.w0 eq_refl).
Defined.

Lemma forward_output_shape_witness :
  fst (Run.forward Run.G None (Run.row3, Run.colptr3) Run.edge_type3 None
         (Run.conv, Run.w0))
  = Ok (mkTensor cpu [3; 2] [11; -7; 16; -5; 15; -4]%Z)
  /\ (forall b, bias Run.conv = Some b -> shape b = [out_channels Run.conv])
  /\ exists pre,
       shape (mkTensor cpu [3; 2] [11; -7; 16; -5; 15; -4]%Z)
       = pre ++ [out_channels Run.conv].
Proof.
  assert (Hb : forall b, bias Run.conv = Some b ->
                         shape b = [out_channels Run.conv]).
  { intros b H. injection H as <-. reflexivity. }
  split; [reflexivity|split; [exact Hb|]].
  destruct (@forward_output_shape Z 0%Z 1%Z Z.add Z.mul nat Run.graph
              Run.build Run.G None (Run.row3, Run.colptr3) Run.edge_type3
              None Run.conv Run.w0
              (mkTensor cpu [3; 2] [11; -7; 16; -5; 15; -4]%Z) eq_refl Hb)
    as (k & n & graph & agg & pre & _ & _ & _ & _ & _ & _ & _ & Hout & _).
  exists pre. exact Hout.
Defined.

Lemma forward_reads_witness :
  num_bases Run.conv
  <> num_bases (mkLayer 9 2 2 (Some 7) "mean"%string true (weight Run.conv) None
                  (bias Run.conv))
  /\ fst (Run.forward Run.G
            (Some (mkTensor cpu [3; 4] [1; 2; 3; 4; 5; 6; 7; 8; 9; 10; 11; 12]%Z))
            (Run.row3, Run.colptr3) Run.edge_type3 None (Run.conv, Run.w0))
     = fst (Run.forward Run.G
              (Some (mkTensor cpu [3; 4]
                       [1; 2; 3; 4; 5; 6; 7; 8; 9; 10; 11; 12]%Z))
              (Run.row3, Run.colptr3) Run.edge_type3 None
              (mkLayer 9 2 2 (Some 7) "mean"%string true (weight Run.conv) None
                 (bias Run.conv), Run.w0)).
Proof.
  split; [discriminate|].
  apply (@forward_reads Z 0%Z 1%Z Z.add Z.mul nat Run.graph Run.build Run.G
           (Some (mkTensor cpu [3; 4] [1; 2; 3; 4; 5; 6; 7; 8; 9; 10; 11; 12]%Z))
           (Run.row3, Run.colptr3) Run.edge_type3 None Run.conv
           (mkLayer 9 2 2 (Some 7) "mean"%string true (weight Run.conv) None
              (bias Run.conv))
           Run.w0); try reflexivity.
  discriminate.
Defined.

Lemma forward_zero_bias_witness :
  (forall r : Z, (r + 0)%Z = r)
  /\ fst (Run.forward Run.G None (Run.row3, Run.colptr3) Run.edge_type3 None
            (set_bias Run.conv (Some (mkTensor cpu [2] [0; 0]%Z)), Run.w0))
     = fst (Run.forward Run.G None (Run.row3, Run.colptr3) Run.edge_type3 None
              (set_bias (set_bias Run.conv (Some (mkTensor cpu [2] [0; 0]%Z)))
                 None, Run.w0)).
Proof.
  split; [exact Z.add_0_r|].
  exact (@forward_zero_bias Z 0%Z 1%Z Z.add Z.mul nat Run.graph Run.build
           Run.G None (Run.row3, Run.colptr3) Run.edge_type3 None
           (set_bias Run.conv (Some (mkTensor cpu [2] [0; 0]%Z))) Run.w0
           Z.add_0_r eq_refl).
Defined.

Lemma init_bias_flag_witness :
  In "sum"%string ["sum"; "add"; "mean"]%string
  /\ exists l w1 w2,
       Run.init 4 2 2 None "sum"%string true true Run.w0
       = (Ok (set_bias l (Some (mkTensor cpu [2] (repeat 0%Z 2)))), w1)
       /\ Run.init 4 2 2 None "sum"%string true false Run.w0
          = (Ok (set_bias l None), w2)
       /\ rng w1 = rng w2.
Proof.
  assert (H : In "sum"%string ["sum"; "add"; "mean"]%string)
    by (simpl; auto).
  split; [exact H|].
  destruct (@init_bias_flag Z 0%Z 1%Z Z.add Z.mul nat Run.uniform_ Run.uninit
              Run.graph Run.build 4 2 2 None "sum"%string true Run.w0 Run.G
              None (Run.row3, Run.colptr3) Run.edge_type3 None H)
    as (l & w1 & w2 & H1 & H2 & H3 & _).
  exists l, w1, w2. split; [exact H1|split; [exact H2|exact H3]].
Defined.

Lemma fresh_layer_forward_witness :
  In "mean"%string ["sum"; "add"; "mean"]%string
  /\ 2 <> 0
  /\ exists out,
       fst (Run.forward Run.G None (Run.row3, Run.colptr3) Run.edge_type3 None
              (mkLayer 4 2 2 None "mean"%string true
                 (mkTensor cpu [3; 4; 2]
                    [-4; -3; -2; -1; 0; 1; 2; -4; -3; -2; -1; 0; 1; 2; -4; -3;
                     -2; -1; 0; 1; 2; -4; -3; -2]%Z)
                 None (Some (mkTensor cpu [2] [0; 0]%Z)),
               mkWorld 24 [[3; 4; 2]; [2]])) = Ok out
       /\ shape out = [3; 2] /\ device out = cpu /\ tensor_ok out.
Proof.
  assert (H : In "mean"%string ["sum"; "add"; "mean"]%string)
    by (simpl; auto).
  assert (H2 : 2 <> 0) by discriminate.
  split; [exact H|split; [exact H2|]].
  exact (@fresh_layer_forward Z 0%Z 1%Z Z.add Z.mul nat Run.uniform_ Run.uninit
           Run.graph Run.build 4 2 2 None "mean"%string true true Run.w0
           _ _ Run.G Run.kernel None (Run.row3, Run.colptr3) Run.edge_type3
           None 4 (Run.mkGraph 4 [1; 2]%Z [0; 1; 2; 2]%Z [0; 1]%Z 2 None)
           (mkTensor cpu [3; 12]
              [0; 1; 0; 0; 0; 0; 0; 0; 1; 0; 0; 0;
               0; 0; 0; 0; 0; 0; 1; 0; 0; 1; 0; 0;
               0; 0; 0; 0; 0; 0; 0; 0; 0; 0; 1; 0]%Z)
           3 H H2 eq_refl eq_refl eq_refl eq_refl eq_refl eq_refl eq_refl).
Defined.
